(** * Orchestration kernel of the smart customer service system

    A shallow embedding of the three kernel modules of
    [smart_customer_service/core]: the goal tracker ([goal_manager.py]),
    the exception recovery engine ([exception_handler.py]) and the
    communication hub ([communication_hub.py], with [Message] and
    [BaseAgent] from [agents/base_agent.py]), followed by the properties
    proved about them.

    Conventions of the embedding.
    - A [datetime] is an integer count of microseconds (the resolution of
      Python's [datetime]); a [timedelta] is a difference of two of them,
      and [total_seconds] is the exact rational [microseconds / 10^6].
      Python computes these ratios in binary floating point; here they are
      exact rationals ([Q]), so [0.1], [0.5] and [1.0] are [1/10], [1/2]
      and [1].
    - Every method that reads [datetime.now()] takes the clock reading as
      its first argument [now]; all readings made during one call are the
      same instant, except where a definition takes a reading for each
      ([billing_agent.create_and_track_goal]).
    - Mutable objects are threaded explicitly: a method returns the new
      state of the object it mutates next to its result.
    - A raised exception is a value [Err e] of the [result] type; the
      exceptions of the embedding are the instances of [Exception], the
      ones that the [except Exception] clauses of the kernel catch.
    - The hub's registry holds references to the registered objects; the
      objects are in a store that [send_message] reads and updates.
    - The asynchronous drain loop [process_message_queue] is left out. *)

From Stdlib Require Import ZArith QArith Qminmax Lqa String Ascii List Bool Lia.
From stdpp Require Import base option list gmap strings.

Set Default Proof Using "Type".

(* ===================================================================== *)
(** * Python preliminaries *)
(* ===================================================================== *)

Module python.

(** An instant of [datetime], in microseconds. *)
Definition datetime := Z.

(** [timedelta.total_seconds()] of a difference given in microseconds. *)
Definition total_seconds (delta : Z) : Q := Qmake delta 1000000.

(** An exception object: the name of its class ([type(e).__name__]) and
    its text ([str(e)]). *)
Record Exception := mkException { type_name : string; str : string }.

(** The outcome of a call that may raise. *)
Inductive result (A : Type) : Type :=
| Ok (a : A)
| Err (e : Exception).
Arguments Ok {A} a.
Arguments Err {A} e.

(** The double quote character, for the f-strings that contain one. *)
Definition dquote : string := String (ascii_of_nat 34) EmptyString.
Definition squote : string := String (ascii_of_nat 39) EmptyString.

(** [list.remove(x)]: drops the first occurrence of [x] only. Python
    raises [ValueError] when there is none; every call site of the kernel
    guards the call with [x in l], and on such a list this function is the
    identity. *)
Fixpoint list_remove_first (x : string) (l : list string) : list string :=
  match l with
  | [] => []
  | y :: l' => if decide (x = y) then l' else y :: list_remove_first x l'
  end.

(** [range(n)]: the integers [0 .. n-1], empty when [n <= 0]. *)
Definition range (n : Z) : list Z := map Z.of_nat (seq 0 (Z.to_nat n)).

(** [l[start:]] for a list: a negative [start] counts from the end, and
    an index outside the list is clipped to it. *)
Definition slice_from {A : Type} (start : Z) (l : list A) : list A :=
  let len := Z.of_nat (length l) in
  let first := if (start <? 0)%Z then Z.max 0 (len + start) else Z.min start len in
  drop (Z.to_nat first) l.

(** [str.lower()] on ASCII text: the letters [A]..[Z] are mapped to
    [a]..[z], every other byte is kept. *)
Definition lower_ascii (c : ascii) : ascii :=
  let n := nat_of_ascii c in
  if (65 <=? n)%nat && (n <=? 90)%nat then ascii_of_nat (n + 32) else c.

Fixpoint lower (s : string) : string :=
  match s with
  | EmptyString => EmptyString
  | String c s' => String (lower_ascii c) (lower s')
  end.

(** [needle in haystack] on strings: [needle] occurs as a contiguous
    substring. *)
Fixpoint contains (needle haystack : string) : bool :=
  String.prefix needle haystack ||
  match haystack with
  | EmptyString => false
  | String _ rest => contains needle rest
  end.

(** [s.split(sep)[0]]: the text before the first occurrence of the
    separator character (all of [s] when there is none). *)
Fixpoint split_head (sep : ascii) (s : string) : string :=
  match s with
  | EmptyString => EmptyString
  | String c rest =>
      if decide (c = sep) then EmptyString else String c (split_head sep rest)
  end.

End python.

(* ===================================================================== *)
(** * core/goal_manager.py *)
(* ===================================================================== *)

Module goal_manager.
Import python.

Inductive GoalStatus : Set :=
| PENDING
| IN_PROGRESS
| COMPLETED
| FAILED
| CANCELLED.

#[global] Instance GoalStatus_eq_dec : EqDecision GoalStatus.
Proof. solve_decision. Defined.

(** The free-form metadata mapping of a goal. *)
Abbreviation Metadata := (gmap string string).

(** The [Goal] dataclass. *)
#[warnings="-register-all"]
Inductive Goal : Type := mkGoal {
  id : string;
  description : string;
  status : GoalStatus;
  created_at : datetime;
  completed_at : option datetime;
  deadline : option datetime;
  metadata : Metadata;
  subgoals : list Goal
}.

Definition set_status (st : GoalStatus) (g : Goal) : Goal :=
  mkGoal (id g) (description g) st (created_at g) (completed_at g)
         (deadline g) (metadata g) (subgoals g).

Definition set_completed_at (t : option datetime) (g : Goal) : Goal :=
  mkGoal (id g) (description g) (status g) (created_at g) t
         (deadline g) (metadata g) (subgoals g).

(** [Goal.is_expired]: a goal without a deadline never expires. *)
Definition is_expired (now : datetime) (g : Goal) : bool :=
  match deadline g with
  | Some d => (d <? now)%Z
  | None => false
  end.

(** The state of a [GoalManager] object. *)
Record GoalManager : Type := mkGoalManager {
  goals : gmap string Goal;
  active_goals : list string
}.

(** [GoalManager.__init__] *)
Definition init : GoalManager := mkGoalManager ∅ [].

(** [status in [COMPLETED, FAILED, CANCELLED]] *)
Definition terminal (st : GoalStatus) : bool :=
  match st with
  | COMPLETED | FAILED | CANCELLED => true
  | PENDING | IN_PROGRESS => false
  end.

(** [GoalManager.create_goal]: the new goal always starts [PENDING], so
    the test before the append always succeeds; the id is appended
    whether or not it is already in the list. *)
Definition create_goal (now : datetime) (goal_id description : string)
    (deadline : option datetime) (metadata : option Metadata)
    (m : GoalManager) : Goal * GoalManager :=
  let goal := mkGoal goal_id description PENDING now None deadline
                     (default ∅ metadata) [] in
  let goals' := <[goal_id := goal]> (goals m) in
  let active' :=
    if decide (status goal = PENDING)
    then active_goals m ++ [goal_id]
    else active_goals m in
  (goal, mkGoalManager goals' active').

(** [GoalManager.update_goal_status] *)
Definition update_goal_status (now : datetime) (goal_id : string)
    (st : GoalStatus) (m : GoalManager) : GoalManager :=
  match goals m !! goal_id with
  | None => m
  | Some goal =>
      let goal1 := set_status st goal in
      let goal2 :=
        if decide (st = COMPLETED)
        then set_completed_at (Some now) goal1
        else goal1 in
      let active' :=
        if terminal st
        then
          if bool_decide (goal_id ∈ active_goals m)
          then list_remove_first goal_id (active_goals m)
          else active_goals m
        else
          if bool_decide (goal_id ∉ active_goals m) && bool_decide (st ≠ PENDING)
          then active_goals m ++ [goal_id]
          else active_goals m in
      mkGoalManager (<[goal_id := goal2]> (goals m)) active'
  end.

(** [GoalManager.get_active_goals] *)
Definition get_active_goals (m : GoalManager) : list Goal :=
  omap (fun gid => goals m !! gid) (active_goals m).

(** The branch of [get_goal_progress] for a goal that is neither
    completed, failed nor cancelled. The test [if goal.deadline] is the
    test that a deadline was given: a [datetime] is never falsy. *)
Definition time_progress (now : datetime) (goal : Goal) : Q :=
  match deadline goal with
  | Some d =>
      let total_duration := total_seconds (d - created_at goal) in
      let elapsed_duration := total_seconds (now - created_at goal) in
      if Qlt_le_dec 0 total_duration
      then Qmin 1 (elapsed_duration / total_duration)
      else 0
  | None => 1 # 2
  end.

(** [GoalManager.get_goal_progress] *)
Definition get_goal_progress (now : datetime) (goal_id : string)
    (m : GoalManager) : Q :=
  match goals m !! goal_id with
  | None => 0
  | Some goal =>
      match status goal with
      | COMPLETED => 1
      | FAILED | CANCELLED => 0
      | PENDING | IN_PROGRESS => time_progress now goal
      end
  end.

(** An alert dictionary of [monitor_goals], with its three keys. *)
Record Alert : Type := mkAlert {
  alert_goal_id : string;
  alert_message : string;
  alert_type : string
}.

Definition expiration_alert (goal : Goal) : Alert :=
  mkAlert (id goal)
          ("Goal " +:+ dquote +:+ description goal +:+ dquote +:+ " has expired")
          "expiration".

Definition slow_progress_alert (goal : Goal) : Alert :=
  mkAlert (id goal)
          ("Goal " +:+ dquote +:+ description goal +:+ dquote +:+ " progress is too slow")
          "slow_progress".

(** The body of the loop of [monitor_goals] for one entry of the active
    list: the alerts it appends. *)
Definition monitor_one (now : datetime) (goal_id : string) (goal : Goal)
    (m : GoalManager) : list Alert :=
  (if is_expired now goal && bool_decide (status goal ≠ COMPLETED)
   then [expiration_alert goal] else [])
  ++
  (let progress := get_goal_progress now goal_id m in
   if (if Qlt_le_dec progress (1 # 10) then true else false)
      && (if Qlt_le_dec 3600 (total_seconds (now - created_at goal))
          then true else false)
   then [slow_progress_alert goal] else []).

(** The loop of [monitor_goals] over the active list; [self.goals[goal_id]]
    raises [KeyError] on an id that is not in the table. *)
Fixpoint monitor_loop (now : datetime) (m : GoalManager)
    (ids : list string) (alerts : list Alert) : result (list Alert) :=
  match ids with
  | [] => Ok alerts
  | goal_id :: ids' =>
      match goals m !! goal_id with
      | None => Err (mkException "KeyError" (squote +:+ goal_id +:+ squote))
      | Some goal =>
          monitor_loop now m ids' (alerts ++ monitor_one now goal_id goal m)
      end
  end.

(** [GoalManager.monitor_goals] *)
Definition monitor_goals (now : datetime) (m : GoalManager)
    : result (list Alert) :=
  monitor_loop now m (active_goals m) [].

(** A call of one of the two mutating methods, and a run of such calls,
    each with the clock reading at which it is made. *)
Inductive Call : Type :=
| CreateGoal (goal_id description : string) (deadline : option datetime)
             (metadata : option Metadata)
| UpdateGoalStatus (goal_id : string) (st : GoalStatus).

Definition run_call (m : GoalManager) (c : datetime * Call) : GoalManager :=
  match c with
  | (now, CreateGoal goal_id description deadline metadata) =>
      snd (create_goal now goal_id description deadline metadata m)
  | (now, UpdateGoalStatus goal_id st) =>
      update_goal_status now goal_id st m
  end.

Definition run_calls (calls : list (datetime * Call)) (m : GoalManager)
    : GoalManager :=
  fold_left run_call calls m.

End goal_manager.

(* ===================================================================== *)
(** * core/exception_handler.py *)
(* ===================================================================== *)

Module exception_handler.
Import python.

Inductive ExceptionType : Set :=
| CONNECTION_ERROR
| TIMEOUT_ERROR
| VALIDATION_ERROR
| BUSINESS_ERROR
| SYSTEM_ERROR
| UNKNOWN_ERROR.

#[global] Instance ExceptionType_eq_dec : EqDecision ExceptionType.
Proof. solve_decision. Defined.

(** [ExceptionType.value] *)
Definition value (t : ExceptionType) : string :=
  match t with
  | CONNECTION_ERROR => "connection_error"
  | TIMEOUT_ERROR => "timeout_error"
  | VALIDATION_ERROR => "validation_error"
  | BUSINESS_ERROR => "business_error"
  | SYSTEM_ERROR => "system_error"
  | UNKNOWN_ERROR => "unknown_error"
  end.

Definition ExceptionType_index (t : ExceptionType) : nat :=
  match t with
  | CONNECTION_ERROR => 0
  | TIMEOUT_ERROR => 1
  | VALIDATION_ERROR => 2
  | BUSINESS_ERROR => 3
  | SYSTEM_ERROR => 4
  | UNKNOWN_ERROR => 5
  end.

Definition ExceptionType_of_index (n : nat) : ExceptionType :=
  match n with
  | 0 => CONNECTION_ERROR
  | 1 => TIMEOUT_ERROR
  | 2 => VALIDATION_ERROR
  | 3 => BUSINESS_ERROR
  | 4 => SYSTEM_ERROR
  | _ => UNKNOWN_ERROR
  end.

#[global] Instance ExceptionType_countable : Countable ExceptionType.
Proof.
  apply (inj_countable' ExceptionType_index ExceptionType_of_index).
  by intros [].
Defined.

Inductive RecoveryStrategy : Set :=
| RETRY
| FALLBACK
| ESCALATE
| IGNORE.

#[global] Instance RecoveryStrategy_eq_dec : EqDecision RecoveryStrategy.
Proof. solve_decision. Defined.

(** [ExceptionInfo]; the timestamp and the formatted call stack are read
    from the environment when the record is built. *)
Record ExceptionInfo : Type := mkExceptionInfo {
  exception_type : ExceptionType;
  message : string;
  context : gmap string string;
  recovery_strategy : RecoveryStrategy;
  timestamp : datetime;
  traceback : list string
}.

(** A record emitted through [self.logger]: severity and text. *)
Inductive Level : Set := WARNING | ERROR | CRITICAL.
Definition LogRecord : Type := Level * string.

(** A per-kind hook: it only logs. *)
Definition Hook : Type := ExceptionInfo -> list LogRecord.

Definition _handle_connection_error : Hook :=
  fun _ => [(WARNING, "Handling connection error...")].
Definition _handle_timeout_error : Hook :=
  fun _ => [(WARNING, "Handling timeout error...")].
Definition _handle_validation_error : Hook :=
  fun _ => [(WARNING, "Handling validation error...")].
Definition _handle_business_error : Hook :=
  fun _ => [(ERROR, "Handling business error...")].
Definition _handle_system_error : Hook :=
  fun _ => [(CRITICAL, "Handling system error...")].

(** The state of an [ExceptionHandler]: the two tables. *)
Record ExceptionHandler : Type := mkExceptionHandler {
  handlers : gmap ExceptionType Hook;
  recovery_strategies : gmap ExceptionType RecoveryStrategy
}.

(** [ExceptionHandler.add_handler] *)
Definition add_handler (t : ExceptionType) (handler : Hook)
    (h : ExceptionHandler) : ExceptionHandler :=
  mkExceptionHandler (<[t := handler]> (handlers h)) (recovery_strategies h).

Definition set_strategy (t : ExceptionType) (s : RecoveryStrategy)
    (h : ExceptionHandler) : ExceptionHandler :=
  mkExceptionHandler (handlers h) (<[t := s]> (recovery_strategies h)).

(** [ExceptionHandler.setup_default_handlers], run by [__init__] on the
    empty tables. *)
Definition setup_default_handlers (h : ExceptionHandler) : ExceptionHandler :=
  let h := set_strategy CONNECTION_ERROR RETRY
             (add_handler CONNECTION_ERROR _handle_connection_error h) in
  let h := set_strategy TIMEOUT_ERROR RETRY
             (add_handler TIMEOUT_ERROR _handle_timeout_error h) in
  let h := set_strategy VALIDATION_ERROR IGNORE
             (add_handler VALIDATION_ERROR _handle_validation_error h) in
  let h := set_strategy BUSINESS_ERROR ESCALATE
             (add_handler BUSINESS_ERROR _handle_business_error h) in
  set_strategy SYSTEM_ERROR ESCALATE
    (add_handler SYSTEM_ERROR _handle_system_error h).

Definition init : ExceptionHandler :=
  setup_default_handlers (mkExceptionHandler ∅ ∅).

(** [ExceptionHandler._classify_exception]: the chain of tests on the
    lower-cased class name. *)
Definition _classify_exception (exception : Exception) : ExceptionType :=
  let exception_str := lower (type_name exception) in
  if contains "connection" exception_str || contains "connect" exception_str
  then CONNECTION_ERROR
  else if contains "timeout" exception_str
  then TIMEOUT_ERROR
  else if contains "validation" exception_str || contains "value" exception_str
  then VALIDATION_ERROR
  else if contains "business" exception_str
  then BUSINESS_ERROR
  else if contains "system" exception_str
  then SYSTEM_ERROR
  else UNKNOWN_ERROR.

(** [ExceptionHandler.handle_exception]: the record, and what was logged. *)
Definition handle_exception (now : datetime) (stack : list string)
    (exception : Exception) (ctx : option (gmap string string))
    (h : ExceptionHandler) : ExceptionInfo * list LogRecord :=
  let exception_type := _classify_exception exception in
  let recovery_strategy :=
    default IGNORE (recovery_strategies h !! exception_type) in
  let exception_info :=
    mkExceptionInfo exception_type (str exception) (default ∅ ctx)
                    recovery_strategy now stack in
  let logged :=
    [(ERROR, "Exception caught: " +:+ value exception_type +:+ " - "
              +:+ str exception)] in
  let hooked :=
    match handlers h !! exception_type with
    | Some hook => hook exception_info
    | None => []
    end in
  (exception_info, logged ++ hooked).

Section recovery.

(** The state the caller's operations act on, and the values they return. *)
Context {World Value : Type}.

(** the caller's [operation] with its positional and keyword arguments supplied: a call runs
    on the current state of the world and either returns a value or
    raises. *)
Definition Operation : Type := World -> World * result Value.

(** The options read from [**kwargs]. *)
Record Kwargs : Type := mkKwargs {
  max_retries : option Z;
  fallback_operation : option Operation;
  default_return_value : option Value
}.

(** What [apply_recovery_strategy] does that a caller can observe besides
    its result: calls of the operation, calls of the fallback, and the
    suspensions of [time.sleep], in order. *)
Inductive Event : Type :=
| Invoked
| InvokedFallback
| Slept (seconds : Z).

(** The world together with the events so far, oldest first. *)
Definition Run : Type := World * list Event.

(** The [for i in range(max_retries)] loop of the [RETRY] branch, on the
    indices that remain. Running off the end of the loop reaches the
    final [return None] of the method. *)
Fixpoint retry_loop (operation : Operation) (max_retries : Z)
    (indices : list Z) (r : Run) : result (option Value) * Run :=
  match indices with
  | [] => (Ok None, r)
  | i :: indices' =>
      let '(w, trace) := r in
      let '(w', outcome) := operation w in
      let trace' := trace ++ [Invoked] in
      match outcome with
      | Ok v => (Ok (Some v), (w', trace'))
      | Err e =>
          if (i =? max_retries - 1)%Z
          then (Err e, (w', trace'))
          else retry_loop operation max_retries indices'
                          (w', trace' ++ [Slept (2 ^ i)])
      end
  end.

(** [ExceptionHandler.apply_recovery_strategy] *)
Definition apply_recovery_strategy (exception_info : ExceptionInfo)
    (operation : Operation) (kwargs : Kwargs) (r : Run)
    : result (option Value) * Run :=
  match recovery_strategy exception_info with
  | RETRY =>
      let max_retries := default 3%Z (max_retries kwargs) in
      retry_loop operation max_retries (range max_retries) r
  | FALLBACK =>
      match fallback_operation kwargs with
      | Some fallback =>
          let '(w, trace) := r in
          let '(w', outcome) := fallback w in
          (match outcome with
           | Ok v => Ok (Some v)
           | Err e => Err e
           end, (w', trace ++ [InvokedFallback]))
      | None => (Ok None, r)
      end
  | ESCALATE =>
      (Err (mkException "Exception"
              ("Escalating exception: " +:+ message exception_info)), r)
  | IGNORE => (Ok (default_return_value kwargs), r)
  end.

End recovery.

Arguments Operation : clear implicits.
Arguments Kwargs : clear implicits.
Arguments Run : clear implicits.

End exception_handler.

(* ===================================================================== *)
(** * agents/base_agent.py *)
(* ===================================================================== *)

Module base_agent.
Import python.

(** The [Message] dataclass; [__post_init__] has filled in the timestamp. *)
Record Message : Type := mkMessage {
  sender : string;
  recipient : string;
  content : string;
  timestamp : datetime;
  metadata : option (gmap string string)
}.

(** What the hub sees of a registered object (the registry is typed
    [Dict[str, Any]]): its [history] attribute, [None] when the object has
    none, and its [receive_message] method. The method runs on the
    object's history and yields the history it leaves behind, together
    with the exception it raised, if any. *)
Record Agent : Type := mkAgent {
  history : option (list Message);
  receive_message :
    Message -> option (list Message) -> option (list Message) * option Exception
}.

(** [BaseAgent.receive_message]: appends to [self.history]. *)
Definition BaseAgent_receive_message (message : Message)
    (h : option (list Message)) : option (list Message) * option Exception :=
  match h with
  | Some l => (Some (l ++ [message]), None)
  | None =>
      (None, Some (mkException "AttributeError"
                     "object has no attribute 'history'"))
  end.

(** An object of a subclass of [BaseAgent] with the given history. *)
Definition BaseAgent (h : list Message) : Agent :=
  mkAgent (Some h) BaseAgent_receive_message.

(** A reference to an object, and the store of the objects that the
    references denote. Registering an object hands the hub a reference;
    the object stays where it is, so what a delivery does to it is seen
    through every name and every variable that refers to it. *)
Definition ref : Type := nat.
Definition Store : Type := ref -> Agent.

(** The store in which the object behind [r] has become [object]. *)
Definition store_set (r : ref) (object : Agent) (store : Store) : Store :=
  fun r' => if decide (r' = r) then object else store r'.

End base_agent.

(* ===================================================================== *)
(** * core/communication_hub.py *)
(* ===================================================================== *)

Module communication_hub.
Import python base_agent.

(** A Python [dict] with string keys, in insertion order. *)
Section dict.
Context {V : Type}.

Definition dict : Type := list (string * V).

(** [k in d] and [d.get(k)] *)
Fixpoint dict_get (k : string) (d : dict) : option V :=
  match d with
  | [] => None
  | (k', v) :: d' => if decide (k = k') then Some v else dict_get k d'
  end.

(** [d[k] = v]: an existing key keeps its place, a new one goes last. *)
Fixpoint dict_set (k : string) (v : V) (d : dict) : dict :=
  match d with
  | [] => [(k, v)]
  | (k', v') :: d' =>
      if decide (k = k') then (k, v) :: d' else (k', v') :: dict_set k v d'
  end.

(** [del d[k]] *)
Fixpoint dict_del (k : string) (d : dict) : dict :=
  match d with
  | [] => []
  | (k', v') :: d' =>
      if decide (k = k') then d' else (k', v') :: dict_del k d'
  end.

End dict.
Arguments dict : clear implicits.

(** The payload of a result: the message id that [send_message] derives
    from the content and the clock, or what a topic handler returned. *)
Inductive Data : Type :=
| MessageId (content : string) (now : datetime)
| HandlerResult (v : string).

(** The [CommunicationResult] dataclass. *)
Record CommunicationResult : Type := mkCommunicationResult {
  success : bool;
  message : string;
  data : option Data;
  error : option string
}.

Section hub.

(** The state that topic handlers act on. *)
Context {World : Type}.

(** A topic handler, called as [handler(content, metadata)]: it acts on
    the world outside the hub and returns a value or raises. *)
Definition Handler : Type :=
  string -> option (gmap string string) -> World -> World * result string.

(** The state of a [CommunicationHub]. The registry maps a name to a
    reference to the registered object; the object itself lives in the
    store. *)
Record CommunicationHub : Type := mkCommunicationHub {
  agents : dict ref;
  message_queue : list Message;
  message_handlers : dict Handler
}.

(** [CommunicationHub.__init__] *)
Definition init : CommunicationHub := mkCommunicationHub [] [] [].

(** [CommunicationHub.register_agent] *)
Definition register_agent (agent_name : string) (agent_instance : ref)
    (hub : CommunicationHub) : CommunicationHub :=
  mkCommunicationHub (dict_set agent_name agent_instance (agents hub))
                     (message_queue hub) (message_handlers hub).

(** [CommunicationHub.unregister_agent] *)
Definition unregister_agent (agent_name : string) (hub : CommunicationHub)
    : CommunicationHub :=
  match dict_get agent_name (agents hub) with
  | Some _ =>
      mkCommunicationHub (dict_del agent_name (agents hub))
                         (message_queue hub) (message_handlers hub)
  | None => hub
  end.

(** [CommunicationHub.send_message]: the result, the hub and the store
    after the call. *)
Definition send_message (now : datetime) (sender recipient content : string)
    (metadata : option (gmap string string)) (hub : CommunicationHub)
    (store : Store) : CommunicationResult * CommunicationHub * Store :=
  match dict_get recipient (agents hub) with
  | None =>
      (mkCommunicationResult false
         ("Recipient agent '" +:+ recipient +:+ "' not found")
         None
         (Some ("Agent '" +:+ recipient +:+ "' is not registered")),
       hub, store)
  | Some recipient_agent =>
      let message :=
        mkMessage sender recipient content now (Some (default ∅ metadata)) in
      let hub' :=
        mkCommunicationHub (agents hub) (message_queue hub ++ [message])
                           (message_handlers hub) in
      let object := store recipient_agent in
      let '(history', raised) :=
        receive_message object message (history object) in
      let store' :=
        store_set recipient_agent
                  (mkAgent history' (receive_message object)) store in
      match raised with
      | None =>
          (mkCommunicationResult true
             ("Message sent to '" +:+ recipient +:+ "' successfully")
             (Some (MessageId content now))
             None,
           hub', store')
      | Some e =>
          (mkCommunicationResult false
             ("Failed to send message to '" +:+ recipient +:+ "'")
             None
             (Some (str e)),
           hub', store')
      end
  end.

(** The loop of [broadcast_message] over the names of the registry. *)
Fixpoint broadcast_loop (now : datetime) (sender content : string)
    (metadata : option (gmap string string)) (exclude : list string)
    (names : list string) (results : list CommunicationResult)
    (hub : CommunicationHub) (store : Store)
    : list CommunicationResult * CommunicationHub * Store :=
  match names with
  | [] => (results, hub, store)
  | agent_name :: names' =>
      if bool_decide (agent_name ∉ exclude)
      then
        let '(result, hub', store') :=
          send_message now sender agent_name content metadata hub store in
        broadcast_loop now sender content metadata exclude names'
                       (results ++ [result]) hub' store'
      else
        broadcast_loop now sender content metadata exclude names' results
                       hub store
  end.

(** [CommunicationHub.broadcast_message] *)
Definition broadcast_message (now : datetime) (sender content : string)
    (metadata : option (gmap string string)) (exclude : option (list string))
    (hub : CommunicationHub) (store : Store)
    : list CommunicationResult * CommunicationHub * Store :=
  broadcast_loop now sender content metadata (default [] exclude)
                 (map fst (agents hub)) [] hub store.

(** The composite key [f"{agent_name}:{topic}"]. *)
Definition topic_key (agent_name topic : string) : string :=
  agent_name +:+ ":" +:+ topic.

(** [CommunicationHub.subscribe_to_topic] *)
Definition subscribe_to_topic (agent_name topic : string) (handler : Handler)
    (hub : CommunicationHub) : CommunicationHub :=
  mkCommunicationHub (agents hub) (message_queue hub)
    (dict_set (topic_key agent_name topic) handler (message_handlers hub)).

(** What a run of [publish_to_topic] has produced so far: the results,
    the state of the world, and the keys whose handler has been called,
    oldest first. *)
Record Published : Type := mkPublished {
  results : list CommunicationResult;
  world : World;
  invoked : list string
}.

(** The result that the body of the loop of [publish_to_topic] appends
    for one handler: the [try] branch when the call returned, the
    [except] branch when it raised. *)
Definition publish_result (topic agent_name : string)
    (outcome : result string) : CommunicationResult :=
  match outcome with
  | Ok result =>
      mkCommunicationResult true
        ("Published to topic '" +:+ topic +:+ "' for agent '"
           +:+ agent_name +:+ "'")
        (Some (HandlerResult result))
        None
  | Err e =>
      mkCommunicationResult false
        ("Failed to publish to topic '" +:+ topic +:+ "' for agent '"
           +:+ agent_name +:+ "'")
        None
        (Some (str e))
  end.

(** The loop of [publish_to_topic] over the items of the subscription
    table. *)
Fixpoint publish_loop (topic content : string)
    (metadata : option (gmap string string))
    (items : list (string * Handler)) (p : Published) : Published :=
  match items with
  | [] => p
  | (handler_key, handler) :: items' =>
      if contains topic handler_key
      then
        let agent_name := split_head ":" handler_key in
        let '(w', outcome) := handler content metadata (world p) in
        publish_loop topic content metadata items'
          (mkPublished
             (results p ++ [publish_result topic agent_name outcome])
             w'
             (invoked p ++ [handler_key]))
      else publish_loop topic content metadata items' p
  end.

(** [CommunicationHub.publish_to_topic] *)
Definition publish_to_topic (sender topic content : string)
    (metadata : option (gmap string string)) (hub : CommunicationHub)
    (w : World) : Published :=
  publish_loop topic content metadata (message_handlers hub)
               (mkPublished [] w []).

(** [CommunicationHub.get_message_history]; a registered object is
    truthy, so the test [agent and hasattr(agent, 'history')] is the test
    that the name is registered and the object has a history. *)
Definition get_message_history (agent_name : string) (limit : Z)
    (hub : CommunicationHub) (store : Store) : list Message :=
  match dict_get agent_name (agents hub) with
  | Some agent =>
      match history (store agent) with
      | Some h =>
          if (limit <=? Z.of_nat (length h))%Z
          then slice_from (- limit) h
          else h
      | None => []
      end
  | None => []
  end.

End hub.

Arguments Handler : clear implicits.
Arguments CommunicationHub : clear implicits.
Arguments Published : clear implicits.

End communication_hub.

(* ===================================================================== *)
(** * agents/specialized_agents/billing_agent.py *)
(* ===================================================================== *)

Module billing_agent.
Import python goal_manager.

(** [GoalStatus.value], the string of a status (from [goal_manager.py]). *)
Definition status_value (st : GoalStatus) : string :=
  match st with
  | PENDING => "pending"
  | IN_PROGRESS => "in_progress"
  | COMPLETED => "completed"
  | FAILED => "failed"
  | CANCELLED => "cancelled"
  end.

(** The [status_map] dictionary of [update_goal_progress]. *)
Definition status_map : list (string * GoalStatus) :=
  [("pending", PENDING);
   ("in_progress", IN_PROGRESS);
   ("completed", COMPLETED);
   ("failed", FAILED);
   ("cancelled", CANCELLED)].

(** [status_map[key]], [None] when [key not in status_map]. *)
Fixpoint status_map_get (key : string) (table : list (string * GoalStatus))
    : option GoalStatus :=
  match table with
  | [] => None
  | (k, st) :: table' =>
      if decide (key = k) then Some st else status_map_get key table'
  end.

(** The status that a request names: the lookup of [status.lower()]. *)
Definition parse_status (status : string) : option GoalStatus :=
  status_map_get (lower status) status_map.

(** The dictionary that [update_goal_progress] returns. *)
Record UpdateReport : Type := mkUpdateReport {
  update_goal_id : string;
  update_status : string;
  updated : bool;
  update_error : option string
}.

(** [GoalMonitoringAgent.update_goal_progress] *)
Definition update_goal_progress (now : datetime) (goal_id status : string)
    (m : GoalManager) : UpdateReport * GoalManager :=
  match parse_status status with
  | Some st =>
      (mkUpdateReport goal_id status true None,
       update_goal_status now goal_id st m)
  | None =>
      (mkUpdateReport goal_id "invalid_status" false
         (Some ("Invalid status: " +:+ status)),
       m)
  end.

(** [timedelta(hours=h)] in microseconds. *)
Definition hours (h : Z) : Z := (h * 3600 * 1000000)%Z.

(** The range of Python's [datetime]: the instants from [datetime.min],
    the start of year 1, to [datetime.max], the last microsecond of year
    9999 ([date.max.toordinal()] is 3652059 days). Where the range
    matters, an instant is its count of microseconds from
    [datetime.min]. *)
Definition day : Z := (86400 * 1000000)%Z.
Definition datetime_max : Z := (3652059 * day - 1)%Z.
Definition is_datetime (t : Z) : bool :=
  (0 <=? t)%Z && (t <=? datetime_max)%Z.

(** The range of a [timedelta]: its normalised number of whole days, the
    quotient rounded down, is between -999999999 and 999999999. *)
Definition is_timedelta (d : Z) : bool :=
  (-999999999 <=? d / day)%Z && (d / day <=? 999999999)%Z.

(** What the computation of a deadline raises. The text of the error is
    the library's, differs between the two operations below, and is not
    modelled. *)
Inductive Raised : Type := OverflowError.

(** [timedelta(hours=h)] for an integer [h] *)
Definition timedelta_hours (h : Z) : Raised + Z :=
  if is_timedelta (hours h) then inr (hours h) else inl OverflowError.

(** [t + d] for a [datetime] and a [timedelta] *)
Definition datetime_add (t : datetime) (d : Z) : Raised + datetime :=
  if is_datetime (t + d) then inr (t + d)%Z else inl OverflowError.

(** The dictionary that [create_and_track_goal] returns; the two
    instants stand for their [isoformat()] texts. *)
Record CreatedReport : Type := mkCreatedReport {
  created_goal_id : string;
  created_description : string;
  created_status : string;
  created_deadline : option datetime;
  created : datetime
}.

(** [GoalMonitoringAgent.create_and_track_goal]; [deadline_hours] counts
    as given when it is neither [None] nor zero. The clock is read twice,
    and the two readings are kept apart: [now] is the reading that the
    deadline is counted from, taken only when hours are given, and
    [created_now] is the later reading that [create_goal] stamps the goal
    with. A deadline that cannot be computed raises before [create_goal]
    is called, so the manager then stays as it was. *)
Definition create_and_track_goal (now created_now : datetime)
    (goal_id description : string) (deadline_hours : option Z)
    (m : GoalManager) : Raised + CreatedReport * GoalManager :=
  let deadline : Raised + option datetime :=
    match deadline_hours with
    | Some h =>
        if (h =? 0)%Z then inr None
        else
          match timedelta_hours h with
          | inl e => inl e
          | inr d =>
              match datetime_add now d with
              | inl e => inl e
              | inr t => inr (Some t)
              end
          end
    | None => inr None
    end in
  match deadline with
  | inl e => inl e
  | inr deadline =>
      let '(goal, m') :=
        create_goal created_now goal_id description deadline None m in
      inr (mkCreatedReport (id goal) (goal_manager.description goal)
                           (status_value (status goal))
                           (goal_manager.deadline goal) (created_at goal),
           m')
  end.

(** An alert as [monitor_goals_and_alert] passes it on. *)
Record ProcessedAlert : Type := mkProcessedAlert {
  processed_goal_id : string;
  processed_message : string;
  processed_type : string;
  handled : bool
}.

(** The dictionary that [monitor_goals_and_alert] returns. *)
Record MonitoringReport : Type := mkMonitoringReport {
  alerts_processed : nat;
  alerts : list ProcessedAlert;
  active_goals_count : nat
}.

(** [GoalMonitoringAgent.monitor_goals_and_alert]: the report and the
    lines printed; it raises what [monitor_goals] raises. *)
Definition monitor_goals_and_alert (now : datetime) (m : GoalManager)
    : result (MonitoringReport * list string) :=
  match monitor_goals now m with
  | Err e => Err e
  | Ok found =>
      let processed_alerts :=
        map (fun alert =>
               mkProcessedAlert (alert_goal_id alert) (alert_message alert)
                                (alert_type alert) true)
            found in
      let printed := map (fun alert => "ALERT: " +:+ alert_message alert) found in
      Ok (mkMonitoringReport (length processed_alerts) processed_alerts
                             (length (get_active_goals m)),
          printed)
  end.

(** [sum(1 for goal in all_goals.values() if goal.status == st)] *)
Definition count_status (st : GoalStatus) (m : GoalManager) : nat :=
  length (filter (fun g => status g = st) (snd <$> map_to_list (goals m))).

(** An entry of [active_goals_details]. *)
Record GoalDetail : Type := mkGoalDetail {
  detail_id : string;
  detail_description : string;
  detail_status : string;
  detail_progress : Q
}.

(** The dictionary that [get_goal_report] returns. *)
Record GoalReport : Type := mkGoalReport {
  total_goals : nat;
  active_goals_number : nat;
  completed_goals : nat;
  failed_goals : nat;
  pending_goals : nat;
  completion_rate : Q;
  active_goals_details : list GoalDetail
}.

(** [completed_count / len(all_goals) if all_goals else 0] *)
Definition rate (completed_count total : nat) : Q :=
  if decide (total = 0%nat) then 0
  else inject_Z (Z.of_nat completed_count) / inject_Z (Z.of_nat total).

(** [GoalMonitoringAgent.get_goal_report] *)
Definition get_goal_report (now : datetime) (m : GoalManager) : GoalReport :=
  let active := get_active_goals m in
  let completed_count := count_status COMPLETED m in
  let failed_count := count_status FAILED m in
  let pending_count := count_status PENDING m in
  mkGoalReport (size (goals m)) (length active)
    completed_count failed_count pending_count
    (rate completed_count (size (goals m)))
    (map (fun goal =>
            mkGoalDetail (id goal) (goal_manager.description goal)
                         (status_value (status goal))
                         (get_goal_progress now (id goal) m))
         active).

End billing_agent.

(* ===================================================================== *)
(** * agents/specialized_agents/escalation_agent.py *)
(* ===================================================================== *)

Module escalation_agent.
Import python goal_manager billing_agent.

(** The keys of [input_data] that [GoalSettingAgent.process] reads; a
    field is [None] when the key is missing ([input_data.get] then gives
    the default, ["create"] for the action and [None] for the others). *)
Record InputData : Type := mkInputData {
  action : option string;
  input_goal_id : option string;
  input_description : option string;
  deadline_hours : option Z;
  input_status : option string
}.

(** [not value] for an optional string: missing or empty. *)
Definition missing (value : option string) : bool :=
  match value with
  | None => true
  | Some s => bool_decide (s = EmptyString)
  end.

(** The dictionaries that [process] returns, by their shape. *)
Inductive Response : Type :=
| Failure (error : string)
| Created (goal_id description status : string) (deadline : option datetime)
| Updated (goal_id status : string)
| Report (total active completed failed : nat) (completion_rate : Q).

(** The ["success"] entry of a response. *)
Definition success (r : Response) : bool :=
  match r with
  | Failure _ => false
  | _ => true
  end.

(** [GoalSettingAgent.process] *)
Definition process (now : datetime) (input_data : InputData)
    (m : GoalManager) : Response * GoalManager :=
  let action := default "create" (action input_data) in
  if decide (action = "create") then
    if missing (input_goal_id input_data)
       || missing (input_description input_data)
    then (Failure "Missing goal_id or description", m)
    else
      let goal_id := default EmptyString (input_goal_id input_data) in
      let description := default EmptyString (input_description input_data) in
      let deadline :=
        match deadline_hours input_data with
        | Some h => if (h =? 0)%Z then None else Some (now + hours h)%Z
        | None => None
        end in
      let '(goal, m') := create_goal now goal_id description deadline None m in
      (Created (id goal) (goal_manager.description goal)
               (status_value (status goal)) (goal_manager.deadline goal),
       m')
  else if decide (action = "update_status") then
    if missing (input_goal_id input_data) || missing (input_status input_data)
    then (Failure "Missing goal_id or status", m)
    else
      let goal_id := default EmptyString (input_goal_id input_data) in
      let status := default EmptyString (input_status input_data) in
      match parse_status status with
      | Some st =>
          (Updated goal_id status, update_goal_status now goal_id st m)
      | None => (Failure ("Invalid status: " +:+ status), m)
      end
  else if decide (action = "get_report") then
    let completed_count := count_status COMPLETED m in
    let failed_count := count_status FAILED m in
    (Report (size (goals m)) (length (get_active_goals m))
            completed_count failed_count
            (rate completed_count (size (goals m))),
     m)
  else (Failure ("Unknown action: " +:+ action), m).

End escalation_agent.

(* ===================================================================== *)
(** * agents/customer_service_agent.py *)
(* ===================================================================== *)

Module customer_service_agent.
Import python exception_handler.

(** [RecoveryStrategy.value] (from [exception_handler.py]). *)
Definition strategy_value (s : RecoveryStrategy) : string :=
  match s with
  | RETRY => "retry"
  | FALLBACK => "fallback"
  | ESCALATE => "escalate"
  | IGNORE => "ignore"
  end.

(** The dictionaries that the [except] clause of [process] returns: the
    one of [_handle_process_exception], or the apology with the text of
    the exception and the name of the strategy. *)
Inductive Recovery : Type :=
| RecoveryAttempt
| Apology (error recovery_strategy : string).

(** [CustomerServiceAgent._handle_process_exception]: it returns its
    dictionary and touches nothing. *)
Definition _handle_process_exception : Operation unit Recovery :=
  fun w => (w, Ok RecoveryAttempt).

(** The [except] clause of [CustomerServiceAgent.process] for the
    exception [e] that the [try] block raised: what [process] then
    returns or raises, what is logged, and the events of the recovery.
    The dictionary of a recovery attempt is truthy, [None] is not. *)
Definition process_except (now : datetime) (stack : list string)
    (e : Exception) (ctx : option (gmap string string))
    (h : ExceptionHandler) (trace : list Event)
    : result Recovery * list LogRecord * list Event :=
  let '(exception_info, logged) := handle_exception now stack e ctx h in
  let '(recovery_result, (_, trace')) :=
    apply_recovery_strategy exception_info _handle_process_exception
                            (mkKwargs None None None) (tt, trace) in
  match recovery_result with
  | Err raised => (Err raised, logged, trace')
  | Ok (Some recovered) => (Ok recovered, logged, trace')
  | Ok None =>
      (Ok (Apology (str e)
                   (strategy_value (recovery_strategy exception_info))),
       logged, trace')
  end.

End customer_service_agent.

(* ===================================================================== *)
(** * Goal tracker: auxiliary definitions for the statements *)
(* ===================================================================== *)

Module goal_manager_spec.
Import python goal_manager.

(** A call of [update_goal_status]: clock reading, goal id, new status. *)
Definition Update : Type := datetime * string * GoalStatus.

Definition update_calls (ups : list Update) : list (datetime * Call) :=
  map (fun '(now, goal_id, st) => (now, UpdateGoalStatus goal_id st)) ups.

(** The clock reading of the last update of [goal_id] to [COMPLETED]
    among [ups], or [acc] when there is none. *)
Fixpoint last_completion (goal_id : string) (ups : list Update)
    (acc : option datetime) : option datetime :=
  match ups with
  | [] => acc
  | (now, gid, st) :: ups' =>
      last_completion goal_id ups'
        (if bool_decide (gid = goal_id) && bool_decide (st = COMPLETED)
         then Some now else acc)
  end.

(** The ids that [CreateGoal] calls of a run use are new to the table
    when they are used. *)
Fixpoint fresh_ids (calls : list (datetime * Call)) (m : GoalManager) : Prop :=
  match calls with
  | [] => True
  | c :: calls' =>
      match c with
      | (_, CreateGoal goal_id _ _ _) => goals m !! goal_id = None
      | _ => True
      end /\ fresh_ids calls' (run_call m c)
  end.

(** The invariant of the active index that holds as long as no id is
    created twice: no duplicates, and every entry is the id of a goal
    whose status is not terminal. *)
Definition active_index_ok (m : GoalManager) : Prop :=
  NoDup (active_goals m) /\
  forall gid, gid ∈ active_goals m ->
    exists g, goals m !! gid = Some g /\ terminal (status g) = false.

(** [clamp(x, lo, hi)]: [x] brought into the interval from [lo] to [hi]. *)
Definition clamp (x lo hi : Q) : Q := Qmax lo (Qmin hi x).

(** The table of a manager is keyed by the ids of its goals, and every
    entry of the active index has a goal in the table. *)
Definition table_ok (m : GoalManager) : Prop :=
  (forall gid g, goals m !! gid = Some g -> id g = gid) /\
  (forall gid, gid ∈ active_goals m -> is_Some (goals m !! gid)).

(** Among [alerts] there is one of type [ty] for the goal [goal_id]. *)
Definition alerted (ty goal_id : string) (alerts : list Alert) : Prop :=
  exists a, a ∈ alerts /\ alert_goal_id a = goal_id /\ alert_type a = ty.

(** [now > deadline]: the goal has a deadline and it has passed. *)
Definition deadline_passed (now : datetime) (g : Goal) : Prop :=
  exists d, deadline g = Some d /\ (d < now)%Z.

(** [now - created > 1 hour] *)
Definition older_than_an_hour (now : datetime) (g : Goal) : Prop :=
  (3600 < total_seconds (now - created_at g))%Q.

End goal_manager_spec.


(* ===================================================================== *)
(** * Exception recovery engine: auxiliary definitions for the statements *)
(* ===================================================================== *)

Module exception_handler_spec.
Import python exception_handler.

(** The names of the five kinds that classification can assign besides
    [UNKNOWN_ERROR]. *)
Definition kind_names : list string :=
  ["connection"; "timeout"; "validation"; "business"; "system"].

(** The keywords that the tests of [_classify_exception] look for, kind
    by kind, in the order of the tests. *)
Definition keywords : list (list string * ExceptionType) :=
  [(["connection"; "connect"], CONNECTION_ERROR);
   (["timeout"], TIMEOUT_ERROR);
   (["validation"; "value"], VALIDATION_ERROR);
   (["business"], BUSINESS_ERROR);
   (["system"], SYSTEM_ERROR)].

(** One of the keywords occurs in the name. *)
Definition matches (name : string) (kws : list string) : bool :=
  existsb (fun kw => contains kw name) kws.

(** Ordered matching against a table: the kind of the first row with a
    keyword that occurs in the name, [UNKNOWN_ERROR] when no row has
    one. *)
Fixpoint first_match (table : list (list string * ExceptionType))
    (name : string) : ExceptionType :=
  match table with
  | [] => UNKNOWN_ERROR
  | (kws, kind) :: table' =>
      if matches name kws then kind else first_match table' name
  end.

Section retry.
Context {World Value : Type}.

(** The operation fails [n] times in a row ([n >= 1]) from the world [w]:
    it leaves the world [w'], and [e] is the exception of the last of
    these calls. *)
Inductive fails_in_a_row (operation : Operation World Value)
    : nat -> World -> World -> Exception -> Prop :=
| fails_once w w' e :
    operation w = (w', Err e) ->
    fails_in_a_row operation 1 w w' e
| fails_again n w w1 e1 w' e :
    operation w = (w1, Err e1) ->
    fails_in_a_row operation (S n) w1 w' e ->
    fails_in_a_row operation (S (S n)) w w' e.

(** The events of [n] failed attempts numbered from [i]: a call, then,
    unless it was the last attempt, a suspension of [2^i]. *)
Fixpoint backoff_trace (i : nat) (n : nat) : list Event :=
  match n with
  | 0 => []
  | 1 => [Invoked]
  | S n' => Invoked :: Slept (2 ^ Z.of_nat i) :: backoff_trace (S i) n'
  end.

End retry.

(** An operation on a counter of its calls that always fails, with the
    number of the call in the text of its exception. *)
Definition always_down : Operation nat unit :=
  fun calls =>
    (S calls,
     Err (mkException "ConnectionError"
            (match calls with
             | 0 => "first call failed"
             | 1 => "second call failed"
             | 2 => "third call failed"
             | _ => "later call failed"
             end))).

End exception_handler_spec.

(* ===================================================================== *)
(** * Communication hub: auxiliary definitions for the statements *)
(* ===================================================================== *)

Module communication_hub_spec.
Import python base_agent communication_hub.

Section hub.
Context {World : Type}.

(** The names under which something is registered. *)
Definition registered (hub : CommunicationHub World) : list string :=
  map fst (agents hub).

(** The history that the hub can see under a name. *)
Definition history_of (agent_name : string) (hub : CommunicationHub World)
    (store : Store) : option (list Message) :=
  dict_get agent_name (agents hub) ≫= fun agent => history (store agent).

(** The subscriptions whose composite key contains the topic as a
    substring, in the order of the table. *)
Definition subscriptions_containing (topic : string)
    (table : dict (Handler World)) : list (string * Handler World) :=
  List.filter (fun item => contains topic (fst item)) table.

(** The handlers of the given subscriptions called one after the other,
    whatever each of them returns or raises: their outcomes in order, and
    the world that the last one leaves. *)
Fixpoint call_each (content : string) (metadata : option (gmap string string))
    (subs : list (string * Handler World)) (w : World)
    : list (result string) * World :=
  match subs with
  | [] => ([], w)
  | (_, handler) :: subs' =>
      let '(w', outcome) := handler content metadata w in
      let '(outcomes, w'') := call_each content metadata subs' w' in
      (outcome :: outcomes, w'')
  end.

End hub.

(** The call returned. *)
Definition returned {A : Type} (outcome : result A) : bool :=
  match outcome with
  | Ok _ => true
  | Err _ => false
  end.

(** The last [n] entries of a list, all of it when it is shorter. *)
Definition most_recent {A : Type} (n : nat) (l : list A) : list A :=
  drop (length l - n) l.

(** Two messages, an object whose [receive_message] raises and leaves its
    history as it was, and a store for the instances below: object 0 is
    an agent that has received nothing, object 1 an agent that has
    received the two messages, and every other object is off line. *)
Definition hello : Message :=
  mkMessage "A" "B" "hello" 1%Z (Some ∅).
Definition again : Message :=
  mkMessage "A" "B" "hello again" 2%Z (Some ∅).

Definition offline : Agent :=
  mkAgent (Some [])
    (fun _ h => (h, Some (mkException "ConnectionError" "agent offline"))).

Definition objects : Store :=
  fun r =>
    match r with
    | 0 => BaseAgent []
    | 1 => BaseAgent [hello; again]
    | _ => offline
    end.

(** Two topic handlers on a counter of the calls made: one returns, the
    other raises. *)
Definition answering : Handler nat :=
  fun _ _ calls => (S calls, Ok "done").
Definition failing : Handler nat :=
  fun _ _ calls => (S calls, Err (mkException "RuntimeError" "handler failed")).

End communication_hub_spec.

(* ===================================================================== *)
(** * Goal tracker: further auxiliary definitions *)
(* ===================================================================== *)

Module goal_manager_more_spec.
Import python goal_manager goal_manager_spec.

(** The goal that a call is about. *)
Definition call_goal_id (c : Call) : string :=
  match c with
  | CreateGoal goal_id _ _ _ => goal_id
  | UpdateGoalStatus goal_id _ => goal_id
  end.

(** The ids that the [create_goal] calls of a run use, in order. *)
Fixpoint created_ids (calls : list (datetime * Call)) : list string :=
  match calls with
  | [] => []
  | (_, CreateGoal goal_id _ _ _) :: calls' => goal_id :: created_ids calls'
  | (_, UpdateGoalStatus _ _) :: calls' => created_ids calls'
  end.

End goal_manager_more_spec.

(* ===================================================================== *)
(** * Exception recovery engine: further auxiliary definitions *)
(* ===================================================================== *)

Module exception_handler_more_spec.
Import python exception_handler exception_handler_spec.

Section retry.
Context {World Value : Type}.

(** From the world [w] the operation fails [k] times in a row and then
    returns [v], leaving the world [w']. *)
Inductive succeeds_after (operation : Operation World Value)
    : nat -> World -> World -> Value -> Prop :=
| succeeds_now w w' v :
    operation w = (w', Ok v) ->
    succeeds_after operation 0 w w' v
| succeeds_later k w w1 e w' v :
    operation w = (w1, Err e) ->
    succeeds_after operation k w1 w' v ->
    succeeds_after operation (S k) w w' v.

End retry.

(** The events of [k] failed attempts numbered from [i], each followed
    by its suspension of [2^i]. *)
Fixpoint failed_attempts (i : nat) (k : nat) : list Event :=
  match k with
  | 0 => []
  | S k' => Invoked :: Slept (2 ^ Z.of_nat i) :: failed_attempts (S i) k'
  end.

(** The number of calls of the operation among the events. *)
Definition invocations (trace : list Event) : nat :=
  length (List.filter (fun ev => match ev with Invoked => true | _ => false end)
                      trace).

(** The time spent in [time.sleep] among the events. *)
Fixpoint total_slept (trace : list Event) : Z :=
  match trace with
  | [] => 0
  | Slept seconds :: trace' => seconds + total_slept trace'
  | _ :: trace' => total_slept trace'
  end.

(** The default strategy of each kind, as [setup_default_handlers] and
    the fallback of [handle_exception] give it. *)
Definition default_strategy (kind : ExceptionType) : RecoveryStrategy :=
  match kind with
  | CONNECTION_ERROR | TIMEOUT_ERROR => RETRY
  | VALIDATION_ERROR | UNKNOWN_ERROR => IGNORE
  | BUSINESS_ERROR | SYSTEM_ERROR => ESCALATE
  end.

(** The severity at which the default hook of a kind logs; the unknown
    kind has no hook. *)
Definition default_severity (kind : ExceptionType) : option Level :=
  match kind with
  | CONNECTION_ERROR | TIMEOUT_ERROR | VALIDATION_ERROR => Some WARNING
  | BUSINESS_ERROR => Some ERROR
  | SYSTEM_ERROR => Some CRITICAL
  | UNKNOWN_ERROR => None
  end.

(** An operation on a counter of its calls that fails on its first two
    calls and returns the number of the call from the third on. *)
Definition third_time_lucky : Operation nat nat :=
  fun calls =>
    (S calls,
     if (calls <? 2)%nat
     then Err (mkException "TimeoutError" "timed out")
     else Ok (S calls)).

End exception_handler_more_spec.

(* ===================================================================== *)
(** * Communication hub: further auxiliary definitions *)
(* ===================================================================== *)

Module communication_hub_more_spec.
Import python base_agent communication_hub communication_hub_spec.

Section hub.
Context {World : Type}.

(** A call of one of the methods that change the registry or the
    subscription table, and a run of such calls. *)
Inductive HubCall : Type :=
| Register (agent_name : string) (agent_instance : ref)
| Unregister (agent_name : string)
| Subscribe (agent_name topic : string) (handler : Handler World).

Definition run_hub_call (hub : CommunicationHub World) (c : HubCall)
    : CommunicationHub World :=
  match c with
  | Register agent_name agent_instance =>
      register_agent agent_name agent_instance hub
  | Unregister agent_name => unregister_agent agent_name hub
  | Subscribe agent_name topic handler =>
      subscribe_to_topic agent_name topic handler hub
  end.

Definition run_hub_calls (calls : list HubCall) (hub : CommunicationHub World)
    : CommunicationHub World :=
  fold_left run_hub_call calls hub.

(** The names that a broadcast addresses: the registered names that are
    not excluded, in the order of the registry. *)
Definition addressed (exclude : list string) (hub : CommunicationHub World)
    : list string :=
  List.filter (fun agent_name => bool_decide (agent_name ∉ exclude))
              (registered hub).

(** One call of [send_message] for each of the given names in turn, with
    the same sender, content and metadata: the results in the order of
    the names, and the hub and the store after the last call. *)
Fixpoint send_each (now : datetime) (sender content : string)
    (metadata : option (gmap string string)) (names : list string)
    (hub : CommunicationHub World) (store : Store)
    : list CommunicationResult * CommunicationHub World * Store :=
  match names with
  | [] => ([], hub, store)
  | agent_name :: names' =>
      let '(result, hub1, store1) :=
        send_message now sender agent_name content metadata hub store in
      let '(results, hub2, store2) :=
        send_each now sender content metadata names' hub1 store1 in
      (result :: results, hub2, store2)
  end.

(** The message that a broadcast puts on the queue for one name. *)
Definition broadcast_to (now : datetime) (sender content : string)
    (metadata : option (gmap string string)) (agent_name : string)
    : Message :=
  mkMessage sender agent_name content now (Some (default ∅ metadata)).

(** A result reports on the delivery to the registered agent of the given
    name: a delivered message, with its id, or a failed delivery, with
    the text of what the agent raised. *)
Definition reports_on (now : datetime) (content agent_name : string)
    (result : CommunicationResult) : Prop :=
  (success result = true /\
   message result = "Message sent to '" +:+ agent_name +:+ "' successfully" /\
   data result = Some (MessageId content now) /\
   error result = None) \/
  (success result = false /\
   message result = "Failed to send message to '" +:+ agent_name +:+ "'" /\
   data result = None /\
   is_Some (error result)).

End hub.

Arguments HubCall : clear implicits.

End communication_hub_more_spec.

(* ===================================================================== *)
(** * Goal tracker: properties *)
(* ===================================================================== *)

Module goal_manager_facts.
Import python goal_manager goal_manager_spec.

Lemma list_remove_first_subset x y (l : list string) :
  x ∈ list_remove_first y l -> x ∈ l.
Proof.
  induction l as [|z l IH]; simpl; [done|].
  destruct (decide (y = z)) as [->|Hne].
  - intros H. by apply elem_of_cons; right.
  - rewrite !elem_of_cons. intros [->|H]; [by left | right; auto].
Qed.

Lemma list_remove_first_NoDup y (l : list string) :
  NoDup l -> NoDup (list_remove_first y l) /\ y ∉ list_remove_first y l.
Proof.
  induction 1 as [|z l Hz Hl IH]; simpl.
  - split; [constructor | apply not_elem_of_nil].
  - destruct (decide (y = z)) as [->|Hne]; [done|].
    destruct IH as [IH1 IH2]. split.
    + constructor; [|done]. intros Hin. apply Hz.
      by eapply list_remove_first_subset.
    + rewrite elem_of_cons. intros [?|?]; [done|]. by apply IH2.
Qed.

Lemma init_active_index_ok : active_index_ok init.
Proof.
  split; [constructor|]. intros gid H. by apply elem_of_nil in H.
Qed.

Lemma update_goal_status_active_index_ok now gid st m :
  active_index_ok m -> active_index_ok (update_goal_status now gid st m).
Proof.
  intros [Hnd Hact]. unfold update_goal_status.
  destruct (goals m !! gid) as [g|] eqn:Hg; [|done].
  destruct (terminal st) eqn:Hst; simpl.
  - destruct (list_remove_first_NoDup gid _ Hnd) as [Hnd' Hnot].
    assert (forall x, x ∈ (if bool_decide (gid ∈ active_goals m)
                           then list_remove_first gid (active_goals m)
                           else active_goals m) ->
                      x ∈ active_goals m /\ x <> gid) as Hsub.
    { intros x. case_bool_decide as Hin; intros Hx.
      - split; [by eapply list_remove_first_subset|]. by intros ->.
      - split; [done|]. by intros ->. }
    split; simpl.
    + by case_bool_decide.
    + intros x Hx. destruct (Hsub x Hx) as [Hx1 Hx2].
      rewrite lookup_insert_ne; [|done]. by apply Hact.
  - assert (forall x, x ∈ active_goals m ->
        exists g', <[gid := (if decide (st = COMPLETED)
                             then set_completed_at (Some now) (set_status st g)
                             else set_status st g)]> (goals m) !! x = Some g'
                   /\ terminal (status g') = false) as Hold.
    { intros x Hx. destruct (decide (gid = x)) as [->|Hne].
      - rewrite lookup_insert_eq. eexists; split; [done|].
        by destruct st.
      - rewrite lookup_insert_ne; [|done]. by apply Hact. }
    destruct (bool_decide (gid ∉ active_goals m) && bool_decide (st ≠ PENDING)) eqn:Hc.
    + apply andb_prop in Hc as [Hc1 Hc2].
      apply bool_decide_eq_true in Hc1. split; simpl.
      * apply NoDup_app. split; [done|]. split; [|apply NoDup_singleton].
        intros x Hx Hx'. apply list_elem_of_singleton in Hx' as ->. done.
      * intros x Hx. apply elem_of_app in Hx as [Hx|Hx]; [by apply Hold|].
        apply list_elem_of_singleton in Hx as ->.
        rewrite lookup_insert_eq. eexists; split; [done|]. by destruct st.
    + split; simpl; [done|]. apply Hold.
Qed.

Lemma create_goal_active_index_ok now gid desc dl md m :
  gid ∉ active_goals m ->
  active_index_ok m -> active_index_ok (snd (create_goal now gid desc dl md m)).
Proof.
  intros Hfresh [Hnd Hact]. split; simpl.
  - apply NoDup_app. split; [done|]. split; [|apply NoDup_singleton].
    intros x Hx Hx'. apply list_elem_of_singleton in Hx' as ->. done.
  - intros x Hx. apply elem_of_app in Hx as [Hx|Hx].
    + destruct (decide (gid = x)) as [->|Hne]; [done|].
      rewrite lookup_insert_ne; [|done]. by apply Hact.
    + apply list_elem_of_singleton in Hx as ->.
      rewrite lookup_insert_eq. by eexists.
Qed.

(** As long as [create_goal] is only called with ids that are new to the
    table, no goal with a terminal status is among the active goals. *)
Lemma fresh_ids_active_index_ok calls : forall m,
  active_index_ok m -> fresh_ids calls m ->
  active_index_ok (run_calls calls m).
Proof.
  induction calls as [|[now c] calls IH]; intros m Hm Hfresh; [done|].
  destruct Hfresh as [Hc Hrest]. apply IH; [|done].
  destruct c as [gid desc dl md|gid st]; simpl.
  - apply create_goal_active_index_ok; [|done].
    intros Hin. destruct Hm as [_ Hact].
    destruct (Hact gid Hin) as (g & Hg & _). congruence.
  - by apply update_goal_status_active_index_ok.
Qed.

Lemma get_active_goals_elem m g :
  g ∈ get_active_goals m ->
  exists gid, gid ∈ active_goals m /\ goals m !! gid = Some g.
Proof.
  unfold get_active_goals. rewrite list_elem_of_omap. 
  intros (gid & Hin & Hg). eauto.
Qed.

Lemma fresh_ids_no_terminal_active calls g :
  fresh_ids calls init ->
  g ∈ get_active_goals (run_calls calls init) ->
  terminal (status g) = false.
Proof.
  intros Hfresh Hin.
  destruct (fresh_ids_active_index_ok calls init init_active_index_ok Hfresh)
    as [_ Hact].
  apply get_active_goals_elem in Hin as (gid & Hgid & Hg).
  destruct (Hact gid Hgid) as (g' & Hg' & Ht). congruence.
Qed.


(** C1 fails on the code. [create_goal] appends the id to the active list
    even when the id is already in it, and [update_goal_status] removes
    the first occurrence only: after [create_goal] has run twice for
    ["g1"] and the goal is then completed, the id is still in the active
    index and [get_active_goals] returns the completed goal. *)
Theorem duplicate_create_keeps_completed_goal_active :
  let m := run_calls [(0, CreateGoal "g1" "desc" None None);
                      (1, CreateGoal "g1" "desc" None None);
                      (2, UpdateGoalStatus "g1" COMPLETED)]%Z init in
  active_goals m = ["g1"] /\
  status <$> goals m !! "g1" = Some COMPLETED /\
  status <$> get_active_goals m = [COMPLETED].
Proof. vm_compute. done. Qed.

(** ** The completed timestamp *)

Lemma last_completion_app goal_id (ups more : list Update) acc :
  last_completion goal_id (ups ++ more) acc
  = last_completion goal_id more (last_completion goal_id ups acc).
Proof.
  revert acc. induction ups as [|[[now gid] st] ups IH]; intros acc; simpl.
  - done.
  - apply IH.
Qed.

Lemma last_completion_none goal_id (ups : list Update) acc :
  (forall now, (now, goal_id, COMPLETED) ∉ ups) ->
  last_completion goal_id ups acc = acc.
Proof.
  revert acc. induction ups as [|[[now gid] st] ups IH]; intros acc Hno; simpl.
  - done.
  - rewrite IH.
    + destruct (bool_decide (gid = goal_id) && bool_decide (st = COMPLETED)) eqn:Hc;
        [|done].
      apply andb_prop in Hc as [->%bool_decide_eq_true ->%bool_decide_eq_true].
      exfalso. apply (Hno now). by left.
    + intros now' Hin. apply (Hno now'). by right.
Qed.

Lemma last_completion_is_Some goal_id (ups : list Update) acc :
  is_Some (last_completion goal_id ups acc) <->
  is_Some acc \/ exists now, (now, goal_id, COMPLETED) ∈ ups.
Proof.
  revert acc. induction ups as [|[[now gid] st] ups IH]; intros acc; simpl.
  - split; [by left|]. intros [H|[now H]]; [done|]. by apply elem_of_nil in H.
  - rewrite IH.
    destruct (bool_decide (gid = goal_id) && bool_decide (st = COMPLETED)) eqn:Hc.
    + apply andb_prop in Hc as [->%bool_decide_eq_true ->%bool_decide_eq_true].
      split; [|by left; eexists].
      intros _. right. exists now. by left.
    + split.
      * intros [H|[now' H]]; [by left|]. right. exists now'. by right.
      * intros [H|[now' H]]; [by left|]. right. exists now'.
        apply elem_of_cons in H as [H|H]; [|done].
        simplify_eq.
        rewrite !bool_decide_eq_true_2 in Hc by done. discriminate Hc.
Qed.

(** What a run of updates does to the completed timestamp of a goal that
    is in the table: it ends as the clock reading of the last update of
    that goal to [COMPLETED], and is untouched when there is none. *)
Lemma completed_at_after_updates goal_id (ups : list Update) : forall m g0,
  goals m !! goal_id = Some g0 ->
  exists g, goals (run_calls (update_calls ups) m) !! goal_id = Some g /\
            completed_at g = last_completion goal_id ups (completed_at g0).
Proof.
  induction ups as [|[[now gid] st] ups IH]; intros m g0 Hg0; simpl.
  - by exists g0.
  - unfold update_goal_status.
    destruct (decide (gid = goal_id)) as [->|Hne].
    + rewrite Hg0.
      match goal with
      | |- context [run_calls _ ?m'] =>
          destruct (IH m' (if decide (st = COMPLETED)
                           then set_completed_at (Some now) (set_status st g0)
                           else set_status st g0)) as (g & Hg & Hc)
      end.
      { simpl. by rewrite lookup_insert_eq. }
      exists g. split; [exact Hg|]. rewrite Hc. f_equal.
      rewrite (bool_decide_eq_true_2 (goal_id = goal_id)); [|done]. simpl.
      destruct (decide (st = COMPLETED)) as [->|Hst].
      * by rewrite bool_decide_eq_true_2.
      * by rewrite bool_decide_eq_false_2.
    + rewrite (bool_decide_eq_false_2 (gid = goal_id)); [|done]. simpl.
      destruct (goals m !! gid) as [g1|] eqn:Hg1.
      * apply IH. simpl. by rewrite lookup_insert_ne.
      * by apply IH.
Qed.

(** C2 as stated fails: a goal completed at time 5, reopened, and
    completed again at time 9 ends with the timestamp 9; the later
    transition to [COMPLETED] has changed the timestamp that the first one
    set. *)
Lemma completed_at_overwritten_by_later_completion :
  let m1 := run_calls [(0, CreateGoal "g1" "desc" None None);
                       (5, UpdateGoalStatus "g1" COMPLETED)]%Z init in
  let m2 := run_calls [(7, UpdateGoalStatus "g1" IN_PROGRESS);
                       (9, UpdateGoalStatus "g1" COMPLETED)]%Z m1 in
  completed_at <$> goals m1 !! "g1" = Some (Some 5%Z) /\
  completed_at <$> goals m2 !! "g1" = Some (Some 9%Z) /\
  completed_at <$> goals m2 !! "g1" <> completed_at <$> goals m1 !! "g1".
Proof. vm_compute. repeat split; congruence. Qed.

(** C2, amended. Take a goal from its creation through any sequence of
    [update_goal_status] calls (for any ids):
    - its completed timestamp is the clock reading of the last update of
      this goal to [COMPLETED], so every such update sets it anew, not
      only the first;
    - it is set if and only if the goal has been updated to [COMPLETED]
      at least once;
    - whatever updates follow, a timestamp that is set stays set, and it
      keeps its value as long as none of them updates the goal to
      [COMPLETED]. *)
Theorem completed_at_is_last_completion
    (m : GoalManager) (now0 : datetime) (goal_id description : string)
    (deadline : option datetime) (metadata : option Metadata)
    (ups more : list Update) :
  let m0 := snd (create_goal now0 goal_id description deadline metadata m) in
  let m1 := run_calls (update_calls ups) m0 in
  let m2 := run_calls (update_calls more) m1 in
  exists g1 g2,
    goals m1 !! goal_id = Some g1 /\
    goals m2 !! goal_id = Some g2 /\
    completed_at g1 = last_completion goal_id ups None /\
    (is_Some (completed_at g1) <->
       exists now, (now, goal_id, COMPLETED) ∈ ups) /\
    (is_Some (completed_at g1) -> is_Some (completed_at g2)) /\
    ((forall now, (now, goal_id, COMPLETED) ∉ more) ->
       completed_at g2 = completed_at g1).
Proof.
  intros m0 m1 m2.
  destruct (completed_at_after_updates goal_id ups m0
              (mkGoal goal_id description PENDING now0 None deadline
                      (default ∅ metadata) []))
    as (g1 & Hg1 & Hc1).
  { subst m0. simpl. by rewrite lookup_insert_eq. }
  destruct (completed_at_after_updates goal_id more m1 g1 Hg1)
    as (g2 & Hg2 & Hc2).
  exists g1, g2. simpl in Hc1. repeat split; try done.
  - rewrite Hc1. intros H.
    apply last_completion_is_Some in H as [H|H]; [|done].
    by destruct H.
  - intros H. rewrite Hc1. apply last_completion_is_Some. by right.
  - intros H. rewrite Hc2. apply last_completion_is_Some. by left.
  - intros Hno. rewrite Hc2. by apply last_completion_none.
Qed.

Lemma completed_at_is_last_completion_witness :
  let m2 := run_calls [(0, CreateGoal "g1" "desc" None None);
                       (5, UpdateGoalStatus "g1" COMPLETED);
                       (7, UpdateGoalStatus "g1" IN_PROGRESS)]%Z init in
  exists g2, goals m2 !! "g1" = Some g2 /\ completed_at g2 = Some 5%Z.
Proof.
  destruct (completed_at_is_last_completion init 0%Z "g1" "desc" None None
              [(5%Z, "g1", COMPLETED)] [(7%Z, "g1", IN_PROGRESS)])
    as (g1 & g2 & _ & Hg2 & Hlast & _ & _ & Hsame).
  exists g2. split; [exact Hg2|].
  rewrite Hsame; [exact Hlast|].
  intros now Hin. apply list_elem_of_singleton in Hin. discriminate Hin.
Defined.

(** ** Progress *)

Lemma Qdiv_nonneg (a b : Q) : (0 <= a)%Q -> (0 < b)%Q -> (0 <= a / b)%Q.
Proof.
  intros Ha Hb. apply Qle_shift_div_l; [done|]. by rewrite Qmult_0_l.
Qed.

Lemma Qdiv_nonpos (a b : Q) : (0 <= a)%Q -> (b <= 0)%Q -> (a / b <= 0)%Q.
Proof.
  intros Ha Hb. destruct (Qeq_dec b 0) as [Hz|Hnz].
  - rewrite Hz. unfold Qdiv. simpl. rewrite Qmult_0_r. apply Qle_refl.
  - assert (0 < - b)%Q as Hpos by lra.
    assert (a / b == - (a / - b))%Q as -> by (field; lra).
    pose proof (Qdiv_nonneg a (- b) Ha Hpos). lra.
Qed.

Lemma total_seconds_nonneg (z : Z) : (0 <= z)%Z -> (0 <= total_seconds z)%Q.
Proof. intros H. unfold total_seconds, Qle. simpl. lia. Qed.

(** With a clock that has not been set back behind the creation time,
    the guarded [min] of the code is the clamp of the time ratio: the
    ratio is not negative when the total duration is positive, and when
    the total duration is zero or negative the code answers [0], which is
    where the clamp brings a ratio that is not positive. *)
Lemma time_progress_clamp now g d :
  deadline g = Some d -> (created_at g <= now)%Z ->
  (time_progress now g ==
   clamp (total_seconds (now - created_at g) / total_seconds (d - created_at g))
         0 1)%Q.
Proof.
  intros Hd Hnow. unfold time_progress, clamp. rewrite Hd.
  assert (0 <= total_seconds (now - created_at g))%Q as He
    by (apply total_seconds_nonneg; lia).
  destruct (Qlt_le_dec 0 (total_seconds (d - created_at g))) as [Hpos|Hneg].
  - symmetry. apply Q.max_r. apply Q.min_glb; [lra|]. by apply Qdiv_nonneg.
  - symmetry. apply Q.max_l.
    eapply Qle_trans; [apply Q.le_min_r|]. by apply Qdiv_nonpos.
Qed.

(** The code has no lower clamp of its own: read on a clock that was set
    back behind the creation time, the progress of a goal with a deadline
    is negative. *)
Example get_goal_progress_clock_set_back :
  let m := snd (create_goal 100%Z "g1" "desc" (Some 200%Z) None init) in
  get_goal_progress 50%Z "g1" m = ((-50 # 1000000) / (100 # 1000000))%Q.
Proof. reflexivity. Qed.

(** A clock that is never set back reads no earlier than the creation
    time of any goal: if every call of a run was made at a reading of at
    most [now], every goal in the table was created at or before [now]. *)
Lemma created_at_not_after_now (now : datetime)
    (calls : list (datetime * Call)) : forall m,
  (forall gid g, goals m !! gid = Some g -> (created_at g <= now)%Z) ->
  Forall (fun c => (fst c <= now)%Z) calls ->
  forall gid g, goals (run_calls calls m) !! gid = Some g ->
                (created_at g <= now)%Z.
Proof.
  induction calls as [|[t c] calls IH]; intros m Hm Hcalls; [done|].
  apply Forall_cons in Hcalls as [Ht Hcalls]. simpl in Ht.
  apply IH; [|done].
  intros gid g. destruct c as [k desc dl md|k st]; simpl.
  - destruct (decide (k = gid)) as [->|Hne].
    + rewrite lookup_insert_eq. by intros [= <-].
    + rewrite lookup_insert_ne; [|done]. apply Hm.
  - unfold update_goal_status.
    destruct (goals m !! k) as [g0|] eqn:Hg0; [|apply Hm]. simpl.
    destruct (decide (k = gid)) as [->|Hne].
    + rewrite lookup_insert_eq. intros [= <-].
      destruct (decide (st = COMPLETED)); simpl; by apply (Hm gid g0).
    + rewrite lookup_insert_ne; [|done]. apply Hm.
Qed.

(** C5 as stated fails: the code bounds the time ratio from above only.
    For a goal created at the reading 100 with its deadline at 200, a
    clock that reads 50 gives the progress [-1/2], where the clamp of the
    ratio to the interval from 0 to 1 is 0. *)
Lemma get_goal_progress_negative_before_creation :
  let m := run_calls [(100, CreateGoal "g1" "desc" (Some 200) None)]%Z init in
  (get_goal_progress 50%Z "g1" m == - (1 # 2))%Q /\
  (clamp (total_seconds (50 - 100) / total_seconds (200 - 100)) 0 1 == 0)%Q /\
  ~ (get_goal_progress 50%Z "g1" m ==
     clamp (total_seconds (50 - 100) / total_seconds (200 - 100)) 0 1)%Q.
Proof.
  split; [reflexivity|]. split; [reflexivity|].
  intros H. vm_compute in H. discriminate H.
Qed.

(** C5, amended. The value of [get_goal_progress], case by case: [0] for
    an unknown id; [1] for a completed goal; [0] for a failed or
    cancelled one; for a goal in another status, [1/2] when it has no
    deadline, and when it has one, the time ratio
    [elapsed / total_duration] bounded by 1 from above if the total
    duration is positive, and [0] if the total duration is zero or
    negative. Both durations are measured from the creation time. On a
    clock that reads no earlier than the creation time of the goal this
    is the time ratio clamped to the interval from 0 to 1 (where the
    deadline is the creation time itself the ratio has denominator zero
    and stands for 0, the value the code returns there). *)
Theorem get_goal_progress_cases (now : datetime) (goal_id : string)
    (m : GoalManager) :
  (goals m !! goal_id = None -> get_goal_progress now goal_id m = 0%Q) /\
  (forall g, goals m !! goal_id = Some g ->
     (status g = COMPLETED -> get_goal_progress now goal_id m = 1%Q) /\
     (status g = FAILED \/ status g = CANCELLED ->
        get_goal_progress now goal_id m = 0%Q) /\
     (status g = PENDING \/ status g = IN_PROGRESS ->
        (deadline g = None ->
           get_goal_progress now goal_id m = (1 # 2)%Q) /\
        (forall d, deadline g = Some d ->
           let total_duration := total_seconds (d - created_at g) in
           let elapsed := total_seconds (now - created_at g) in
           ((0 < total_duration)%Q ->
              get_goal_progress now goal_id m
              = Qmin 1 (elapsed / total_duration)) /\
           ((total_duration <= 0)%Q ->
              get_goal_progress now goal_id m = 0%Q) /\
           ((created_at g <= now)%Z ->
              (get_goal_progress now goal_id m ==
               clamp (elapsed / total_duration) 0 1)%Q)))).
Proof.
  unfold get_goal_progress. split.
  - by intros ->.
  - intros g Hg. rewrite Hg. split; [|split].
    + by intros ->.
    + by intros [-> | ->].
    + intros Hst.
      assert (match status g with
              | COMPLETED => 1%Q
              | FAILED | CANCELLED => 0%Q
              | PENDING | IN_PROGRESS => time_progress now g
              end = time_progress now g) as ->
        by (by destruct Hst as [-> | ->]).
      split.
      * intros Hd. unfold time_progress. by rewrite Hd.
      * intros d Hd. split; [|split].
        -- intros Hpos. unfold time_progress. rewrite Hd.
           destruct (Qlt_le_dec 0 (total_seconds (d - created_at g)))
             as [_|Hle]; [done|].
           exfalso. by apply (Qlt_not_le _ _ Hpos).
        -- intros Hneg. unfold time_progress. rewrite Hd.
           destruct (Qlt_le_dec 0 (total_seconds (d - created_at g)))
             as [Hpos|_]; [|done].
           exfalso. by apply (Qlt_not_le _ _ Hpos).
        -- intros Hclock. by apply time_progress_clamp.
Qed.

Lemma get_goal_progress_cases_witness :
  let m := run_calls [(100, CreateGoal "g1" "desc" (Some 200) None)]%Z init in
  (get_goal_progress 150%Z "g1" m ==
   clamp (total_seconds (150 - 100) / total_seconds (200 - 100)) 0 1)%Q.
Proof.
  intros m.
  destruct (get_goal_progress_cases 150%Z "g1" m) as [_ Hcases].
  destruct (Hcases (mkGoal "g1" "desc" PENDING 100%Z None (Some 200%Z) ∅ []))
    as (_ & _ & Hopen); [reflexivity|].
  destruct (Hopen (or_introl eq_refl)) as [_ Hdeadline].
  destruct (Hdeadline 200%Z eq_refl) as (_ & _ & Hclamp).
  apply Hclamp.
  apply (created_at_not_after_now 150%Z
           [(100, CreateGoal "g1" "desc" (Some 200) None)]%Z init) with "g1".
  - intros gid g Hg. unfold init in Hg. cbn [goals] in Hg.
    by rewrite lookup_empty in Hg.
  - repeat constructor. simpl. lia.
  - reflexivity.
Defined.

(** ** Monitoring *)

Lemma init_table_ok : table_ok init.
Proof.
  split.
  - intros gid g H. unfold init in H. cbn [goals] in H.
    by rewrite lookup_empty in H.
  - intros gid H. by apply elem_of_nil in H.
Qed.

Lemma run_call_table_ok m c : table_ok m -> table_ok (run_call m c).
Proof.
  intros [Hid Hact]. destruct c as [now [gid desc dl md|gid st]]; simpl.
  - split; simpl.
    + intros k g. destruct (decide (gid = k)) as [->|Hne].
      * rewrite lookup_insert_eq. by intros [= <-].
      * rewrite lookup_insert_ne; [|done]. apply Hid.
    + intros k Hk. destruct (decide (gid = k)) as [->|Hne].
      * by rewrite lookup_insert_eq.
      * rewrite lookup_insert_ne; [|done]. apply Hact.
        apply elem_of_app in Hk as [Hk|Hk]; [done|].
        by apply list_elem_of_singleton in Hk.
  - unfold update_goal_status.
    destruct (goals m !! gid) as [g0|] eqn:Hg0; [|done].
    split; simpl.
    + intros k g. destruct (decide (gid = k)) as [->|Hne].
      * rewrite lookup_insert_eq. intros [= <-].
        destruct (decide (st = COMPLETED)); simpl; by apply Hid.
      * rewrite lookup_insert_ne; [|done]. apply Hid.
    + intros k Hk. destruct (decide (gid = k)) as [->|Hne].
      * by rewrite lookup_insert_eq.
      * rewrite lookup_insert_ne; [|done]. apply Hact.
        destruct (terminal st).
        -- case_bool_decide; [|done]. by eapply list_remove_first_subset.
        -- destruct (bool_decide (gid ∉ active_goals m) && bool_decide (st ≠ PENDING));
             [|done].
           apply elem_of_app in Hk as [Hk|Hk]; [done|].
           by apply list_elem_of_singleton in Hk.
Qed.

Lemma run_calls_table_ok calls : forall m,
  table_ok m -> table_ok (run_calls calls m).
Proof.
  induction calls as [|c calls IH]; intros m Hm; [done|].
  apply IH. by apply run_call_table_ok.
Qed.

(** On ids that all have a goal in the table, the loop of [monitor_goals]
    does not raise, and it appends exactly what its body yields for each
    entry. *)
Lemma monitor_loop_alerts now m (ids : list string) : forall acc,
  (forall gid, gid ∈ ids -> is_Some (goals m !! gid)) ->
  exists out,
    monitor_loop now m ids acc = Ok (acc ++ out) /\
    forall a, a ∈ out <->
      exists gid g, gid ∈ ids /\ goals m !! gid = Some g /\
                    a ∈ monitor_one now gid g m.
Proof.
  induction ids as [|gid ids IH]; intros acc Hids; simpl.
  - exists []. split; [by rewrite app_nil_r|].
    intros a. split.
    + intros H. by apply elem_of_nil in H.
    + intros (k & g & Hk & _). by apply elem_of_nil in Hk.
  - destruct (Hids gid) as [g Hg]; [by left|]. rewrite Hg.
    destruct (IH (acc ++ monitor_one now gid g m)) as (out & Hout & Hmem).
    { intros k Hk. apply Hids. by right. }
    exists (monitor_one now gid g m ++ out). split.
    + by rewrite Hout, app_assoc.
    + intros a. rewrite elem_of_app, Hmem. split.
      * intros [Ha|(k & g' & Hk & Hg' & Ha)].
        -- exists gid, g. split; [by left|done].
        -- exists k, g'. split; [by right|done].
      * intros (k & g' & Hk & Hg' & Ha).
        apply elem_of_cons in Hk as [->|Hk].
        -- left. congruence.
        -- right. eauto.
Qed.

(** The alerts that the body of the loop yields for one goal. *)
Lemma monitor_one_expiration now gid g m a :
  a ∈ monitor_one now gid g m /\ alert_type a = "expiration" <->
  a = expiration_alert g /\ deadline_passed now g /\ status g <> COMPLETED.
Proof.
  unfold monitor_one, deadline_passed, is_expired.
  rewrite elem_of_app. split.
  - intros [[Ha|Ha] Hty].
    + destruct (deadline g) as [d|]; simpl in Ha;
        [|by apply elem_of_nil in Ha].
      destruct (d <? now)%Z eqn:Hd; simpl in Ha;
        [|by apply elem_of_nil in Ha].
      case_bool_decide as Hst; [|by apply elem_of_nil in Ha].
      apply list_elem_of_singleton in Ha. split; [done|]. split; [|done].
      exists d. split; [done|]. by apply Z.ltb_lt.
    + destruct (_ && _); [|by apply elem_of_nil in Ha].
      apply list_elem_of_singleton in Ha. by subst a.
  - intros (-> & (d & Hd & Hlt) & Hst). split; [|done]. left.
    rewrite Hd. apply Z.ltb_lt in Hlt. rewrite Hlt. simpl.
    rewrite bool_decide_eq_true_2; [|done]. by apply list_elem_of_singleton.
Qed.

Lemma monitor_one_slow_progress now gid g m a :
  a ∈ monitor_one now gid g m /\ alert_type a = "slow_progress" <->
  a = slow_progress_alert g /\
  (get_goal_progress now gid m < 1 # 10)%Q /\ older_than_an_hour now g.
Proof.
  unfold monitor_one, older_than_an_hour.
  rewrite elem_of_app. split.
  - intros [[Ha|Ha] Hty].
    + destruct (_ && _); [|by apply elem_of_nil in Ha].
      apply list_elem_of_singleton in Ha. by subst a.
    + destruct (Qlt_le_dec (get_goal_progress now gid m) (1 # 10)) as [Hp|Hp];
        simpl in Ha; [|by apply elem_of_nil in Ha].
      destruct (Qlt_le_dec 3600 (total_seconds (now - created_at g))) as [He|He];
        simpl in Ha; [|by apply elem_of_nil in Ha].
      by apply list_elem_of_singleton in Ha.
  - intros (-> & Hp & He). split; [|done]. right.
    destruct (Qlt_le_dec (get_goal_progress now gid m) (1 # 10)) as [Hp'|Hp'];
      [|lra].
    destruct (Qlt_le_dec 3600 (total_seconds (now - created_at g))) as [He'|He'];
      [|lra].
    by apply list_elem_of_singleton.
Qed.

(** C6 as stated fails: a failed goal whose deadline has passed is not
    completed, yet it has left the active index and [monitor_goals] has no
    alert for it. *)
Lemma failed_goal_past_deadline_not_alerted :
  let m := run_calls [(0, CreateGoal "g1" "desc" (Some 10) None);
                      (1, UpdateGoalStatus "g1" FAILED)]%Z init in
  (exists g, goals m !! "g1" = Some g /\
             deadline_passed 20%Z g /\ status g <> COMPLETED) /\
  monitor_goals 20%Z m = Ok [].
Proof.
  split; [|reflexivity].
  eexists. split; [reflexivity|]. split; [|done].
  exists 10%Z. split; [reflexivity|lia].
Qed.

(** C6, amended. In every state that calls of [create_goal] and
    [update_goal_status] lead to, [monitor_goals] returns a list of
    alerts in which, for every goal id,
    - there is an "expiration" alert for the id if and only if the id is
      in the active index, [now > deadline] and the status is not
      [COMPLETED];
    - there is a "slow_progress" alert for the id if and only if the id
      is in the active index, [now - created > 1 hour] and the computed
      progress is below [1/10];
    - a goal for which both conditions hold has both alerts in the same
      list. *)
Theorem monitor_goals_alerts_active_goals
    (calls : list (datetime * Call)) (now : datetime) :
  let m := run_calls calls init in
  exists alerts,
    monitor_goals now m = Ok alerts /\
    forall goal_id,
      (alerted "expiration" goal_id alerts <->
         goal_id ∈ active_goals m /\
         exists g, goals m !! goal_id = Some g /\
                   deadline_passed now g /\ status g <> COMPLETED) /\
      (alerted "slow_progress" goal_id alerts <->
         goal_id ∈ active_goals m /\
         exists g, goals m !! goal_id = Some g /\
                   older_than_an_hour now g /\
                   (get_goal_progress now goal_id m < 1 # 10)%Q) /\
      (goal_id ∈ active_goals m ->
       (exists g, goals m !! goal_id = Some g /\
                  deadline_passed now g /\ status g <> COMPLETED /\
                  older_than_an_hour now g /\
                  (get_goal_progress now goal_id m < 1 # 10)%Q) ->
       alerted "expiration" goal_id alerts /\
       alerted "slow_progress" goal_id alerts).
Proof.
  intros m.
  destruct (run_calls_table_ok calls init init_table_ok) as [Hid Hact].
  fold m in Hid, Hact.
  destruct (monitor_loop_alerts now m (active_goals m) [] Hact)
    as (alerts & Hrun & Hmem).
  exists alerts. split; [exact Hrun|].
  assert (forall goal_id,
    alerted "expiration" goal_id alerts <->
    goal_id ∈ active_goals m /\
    exists g, goals m !! goal_id = Some g /\
              deadline_passed now g /\ status g <> COMPLETED) as Hexp.
  { intros goal_id. unfold alerted. split.
    - intros (a & Ha & Hgid & Hty).
      apply Hmem in Ha as (k & g & Hk & Hg & Ha).
      destruct (proj1 (monitor_one_expiration now k g m a) (conj Ha Hty))
        as (-> & Hd & Hst).
      simpl in Hgid. rewrite (Hid k g Hg) in Hgid. subst k. eauto.
    - intros (Hin & g & Hg & Hd & Hst).
      exists (expiration_alert g). split; [|split; [by apply Hid|done]].
      apply Hmem. exists goal_id, g. split; [done|]. split; [done|].
      by apply (monitor_one_expiration now goal_id g m). }
  assert (forall goal_id,
    alerted "slow_progress" goal_id alerts <->
    goal_id ∈ active_goals m /\
    exists g, goals m !! goal_id = Some g /\
              older_than_an_hour now g /\
              (get_goal_progress now goal_id m < 1 # 10)%Q) as Hslow.
  { intros goal_id. unfold alerted. split.
    - intros (a & Ha & Hgid & Hty).
      apply Hmem in Ha as (k & g & Hk & Hg & Ha).
      destruct (proj1 (monitor_one_slow_progress now k g m a) (conj Ha Hty))
        as (-> & Hp & He).
      simpl in Hgid. rewrite (Hid k g Hg) in Hgid. subst k. eauto.
    - intros (Hin & g & Hg & He & Hp).
      exists (slow_progress_alert g). split; [|split; [by apply Hid|done]].
      apply Hmem. exists goal_id, g. split; [done|]. split; [done|].
      by apply (monitor_one_slow_progress now goal_id g m). }
  intros goal_id. split; [apply Hexp|]. split; [apply Hslow|].
  intros Hin (g & Hg & Hd & Hst & He & Hp). split.
  - apply Hexp. eauto 6.
  - apply Hslow. eauto 6.
Qed.

(** The scenario of the specification: a goal created with a deadline
    that has passed gets an "expiration" alert from the next call of
    [monitor_goals]. *)
Lemma monitor_goals_alerts_active_goals_witness :
  let m := run_calls [(11, CreateGoal "g1" "desc" (Some 10) None)]%Z init in
  exists alerts,
    monitor_goals 12%Z m = Ok alerts /\ alerted "expiration" "g1" alerts.
Proof.
  destruct (monitor_goals_alerts_active_goals
              [(11, CreateGoal "g1" "desc" (Some 10) None)]%Z 12%Z)
    as (alerts & Hrun & Hall).
  exists alerts. split; [exact Hrun|].
  apply (proj1 (Hall "g1")). split.
  - apply list_elem_of_singleton. reflexivity.
  - eexists. split; [reflexivity|]. split; [|discriminate].
    exists 10%Z. split; [reflexivity|lia].
Defined.

End goal_manager_facts.

(* ===================================================================== *)
(** * Exception recovery engine: properties *)
(* ===================================================================== *)

Module exception_handler_facts.
Import python exception_handler exception_handler_spec.

(** ** Classification *)

(** C7 as stated fails: the class name [ValueError] contains none of the
    five kind names, and it is classified as a validation error, not as
    unknown, because the test for that kind also looks for ["value"]. *)
Lemma ValueError_is_not_unknown :
  Forall (fun kind_name => contains kind_name (lower "ValueError") = false)
         kind_names /\
  _classify_exception (mkException "ValueError" "invalid literal")
    = VALIDATION_ERROR /\
  _classify_exception (mkException "ValueError" "invalid literal")
    <> UNKNOWN_ERROR.
Proof.
  split; [by repeat constructor|]. split; [reflexivity|discriminate].
Qed.

Lemma classify_exception_first_match (exception : Exception) :
  _classify_exception exception
  = first_match keywords (lower (type_name exception)).
Proof.
  unfold _classify_exception, first_match, keywords, matches, existsb.
  set (name := lower (type_name exception)).
  rewrite !orb_false_r. reflexivity.
Qed.

Lemma first_match_no_match table name :
  (forall kws kind kw, (kws, kind) ∈ table -> kw ∈ kws ->
     contains kw name = false) ->
  first_match table name = UNKNOWN_ERROR.
Proof.
  induction table as [|[kws kind] table IH]; intros Hno; simpl; [done|].
  assert (matches name kws = false) as ->.
  { unfold matches. apply not_true_is_false. intros H.
    apply existsb_exists in H as (kw & Hin & Hkw).
    rewrite (Hno kws kind kw) in Hkw; [done|by left|].
    by apply list_elem_of_In. }
  apply IH. intros kws' kind' kw Hin Hkw.
  apply (Hno kws' kind' kw); [by right|done].
Qed.

Lemma first_match_precedence table name : forall i kws kind,
  table !! i = Some (kws, kind) ->
  matches name kws = true ->
  (forall j kws' kind', (j < i)%nat -> table !! j = Some (kws', kind') ->
     matches name kws' = false) ->
  first_match table name = kind.
Proof.
  induction table as [|[kws0 kind0] table IH]; intros i kws kind Hi Hm Hbefore.
  - by rewrite lookup_nil in Hi.
  - destruct i as [|i]; simpl in *.
    + injection Hi as -> ->. by rewrite Hm.
    + rewrite (Hbefore 0%nat kws0 kind0); [|lia|done].
      apply (IH i kws kind); [done|done|].
      intros j kws' kind' Hj Hlook.
      apply (Hbefore (S j) kws' kind'); [lia|done].
Qed.

(** C7, amended. Classification is ordered substring matching on the
    lower-cased class name of the failure, against the keywords
    connection or connect, then timeout, then validation or value, then
    business, then system:
    - it is the first match of the name in that table;
    - the first row with a keyword that occurs in the name decides the
      kind, whatever later rows say;
    - a name in which none of the seven keywords occurs is classified as
      unknown;
    - two class names that differ only in the case of their letters are
      classified alike. *)
Theorem classify_exception_ordered_keywords (exception : Exception) :
  let name := lower (type_name exception) in
  _classify_exception exception = first_match keywords name /\
  (forall i kws kind,
     keywords !! i = Some (kws, kind) ->
     matches name kws = true ->
     (forall j kws' kind', (j < i)%nat -> keywords !! j = Some (kws', kind') ->
        matches name kws' = false) ->
     _classify_exception exception = kind) /\
  ((forall kws kind kw, (kws, kind) ∈ keywords -> kw ∈ kws ->
      contains kw name = false) ->
   _classify_exception exception = UNKNOWN_ERROR) /\
  (forall other : Exception,
     lower (type_name other) = name ->
     _classify_exception other = _classify_exception exception).
Proof.
  intros name. split; [apply classify_exception_first_match|].
  split; [|split].
  - intros i kws kind Hi Hm Hbefore.
    rewrite classify_exception_first_match.
    by apply (first_match_precedence keywords _ i kws kind).
  - intros Hno. rewrite classify_exception_first_match.
    by apply first_match_no_match.
  - intros other Hother.
    rewrite !classify_exception_first_match. by rewrite Hother.
Qed.

Lemma classify_exception_ordered_keywords_witness :
  _classify_exception (mkException "ConnectTimeout" "no route")
    = CONNECTION_ERROR /\
  _classify_exception (mkException "KeyError" "'k'") = UNKNOWN_ERROR.
Proof.
  split.
  - apply (proj1 (proj2 (classify_exception_ordered_keywords
                           (mkException "ConnectTimeout" "no route")))
             0%nat ["connection"; "connect"] CONNECTION_ERROR);
      [reflexivity|reflexivity|].
    intros j kws' kind' Hj. lia.
  - apply (proj1 (proj2 (proj2 (classify_exception_ordered_keywords
                                  (mkException "KeyError" "'k'"))))).
    intros kws kind kw Hrow Hkw.
    repeat (apply elem_of_cons in Hrow as [Hrow|Hrow];
            [injection Hrow as -> ->;
             repeat (apply elem_of_cons in Hkw as [->|Hkw]; [reflexivity|]);
             by apply elem_of_nil in Hkw|]).
    by apply elem_of_nil in Hrow.
Defined.

(** ** Retry *)

Section retry.
Context {World Value : Type}.
Implicit Types (operation : Operation World Value) (w : World).

(** One round of the loop on a failing call. *)
Lemma retry_loop_failed_attempt operation (max_retries i : Z)
    (indices : list Z) w w' e trace :
  operation w = (w', Err e) ->
  retry_loop operation max_retries (i :: indices) (w, trace)
  = if (i =? max_retries - 1)%Z
    then (Err e, (w', trace ++ [Invoked]))
    else retry_loop operation max_retries indices
                    (w', (trace ++ [Invoked]) ++ [Slept (2 ^ i)]).
Proof. intros Hop. simpl. by rewrite Hop. Qed.

(** An operation that keeps failing is called once for every index that
    the loop is given, with a suspension of [2^i] after the attempt of
    index [i] unless [i] is the last index, where the exception of that
    attempt is raised again. *)
Lemma retry_loop_fails_in_a_row operation (max_retries : Z) :
  forall (n i : nat) w w' e trace,
    fails_in_a_row operation n w w' e ->
    Z.of_nat (i + n) = max_retries ->
    retry_loop operation max_retries (map Z.of_nat (seq i n)) (w, trace)
    = (Err e, (w', trace ++ backoff_trace i n)).
Proof.
  intros n i w w' e trace Hfail. revert i trace.
  induction Hfail as [w w' e Hop | n w w1 e1 w' e Hop Hfail IH];
    intros i trace Hmax.
  - change (map Z.of_nat (seq i 1)) with [Z.of_nat i].
    rewrite (retry_loop_failed_attempt _ _ _ _ _ _ _ _ Hop).
    replace (Z.of_nat i =? max_retries - 1)%Z with true
      by (symmetry; apply Z.eqb_eq; lia).
    reflexivity.
  - change (map Z.of_nat (seq i (S (S n))))
      with (Z.of_nat i :: map Z.of_nat (seq (S i) (S n))).
    rewrite (retry_loop_failed_attempt _ _ _ _ _ _ _ _ Hop).
    replace (Z.of_nat i =? max_retries - 1)%Z with false
      by (symmetry; apply Z.eqb_neq; lia).
    rewrite IH by lia.
    change (backoff_trace i (S (S n)))
      with (Invoked :: Slept (2 ^ Z.of_nat i) :: backoff_trace (S i) (S n)).
    by rewrite <- !app_assoc.
Qed.

Lemma always_fails_in_a_row operation :
  (forall w, exists w' e, operation w = (w', Err e)) ->
  forall n w, exists w' e, fails_in_a_row operation (S n) w w' e.
Proof.
  intros Hfail n. induction n as [|n IH]; intros w.
  - destruct (Hfail w) as (w' & e & Hop). exists w', e. by constructor.
  - destruct (Hfail w) as (w1 & e1 & Hop).
    destruct (IH w1) as (w' & e & Hrest).
    exists w', e. by econstructor.
Qed.

(** With [n >= 1] retries, an operation that fails on every call is
    called [n] times and the exception of its last call reaches the
    caller. *)
Lemma retry_always_failing operation exception_info kwargs (n : nat) w trace :
  recovery_strategy exception_info = RETRY ->
  default 3%Z (max_retries kwargs) = Z.of_nat (S n) ->
  (forall w, exists w' e, operation w = (w', Err e)) ->
  exists w' e,
    fails_in_a_row operation (S n) w w' e /\
    apply_recovery_strategy exception_info operation kwargs (w, trace)
    = (Err e, (w', trace ++ backoff_trace 0 (S n))).
Proof.
  intros Hretry Hmax Hfail.
  destruct (always_fails_in_a_row operation Hfail n w) as (w' & e & Hrow).
  exists w', e. split; [done|].
  unfold apply_recovery_strategy. rewrite Hretry, Hmax.
  unfold range. rewrite Nat2Z.id.
  by apply retry_loop_fails_in_a_row.
Qed.

(** C3. Under the [RETRY] strategy with [max_retries = 3] (passed by the
    caller, or left to its default), an operation that fails on every
    call is called exactly three times; the run is suspended for [2^0]
    after the first attempt and for [2^1] after the second; and the
    exception that the third call raised is what
    [apply_recovery_strategy] raises, unchanged. *)
Theorem retry_three_times_then_raise operation exception_info kwargs w trace :
  recovery_strategy exception_info = RETRY ->
  default 3%Z (max_retries kwargs) = 3%Z ->
  (forall w0, exists w1 e, operation w0 = (w1, Err e)) ->
  exists w1 e1 w2 e2 w3 e3,
    operation w = (w1, Err e1) /\
    operation w1 = (w2, Err e2) /\
    operation w2 = (w3, Err e3) /\
    apply_recovery_strategy exception_info operation kwargs (w, trace)
    = (Err e3,
       (w3, trace ++ [Invoked; Slept (2 ^ 0); Invoked; Slept (2 ^ 1); Invoked])).
Proof.
  intros Hretry Hmax Hfail.
  destruct (Hfail w) as (w1 & e1 & H1).
  destruct (Hfail w1) as (w2 & e2 & H2).
  destruct (Hfail w2) as (w3 & e3 & H3).
  exists w1, e1, w2, e2, w3, e3. repeat split; try done.
  unfold apply_recovery_strategy. rewrite Hretry, Hmax.
  change (range 3) with [0; 1; 2]%Z.
  cbn [retry_loop]. rewrite H1. cbn. rewrite H2. cbn. rewrite H3. cbn.
  by rewrite <- !app_assoc.
Qed.

End retry.

Lemma retry_three_times_then_raise_witness :
  apply_recovery_strategy
    (mkExceptionInfo CONNECTION_ERROR "down" ∅ RETRY 0%Z [])
    always_down (mkKwargs None None None) (0%nat, [])
  = (Err (mkException "ConnectionError" "third call failed"),
     (3%nat, [Invoked; Slept 1; Invoked; Slept 2; Invoked])).
Proof.
  destruct (retry_three_times_then_raise always_down
              (mkExceptionInfo CONNECTION_ERROR "down" ∅ RETRY 0%Z [])
              (mkKwargs None None None) 0%nat [])
    as (w1 & e1 & w2 & e2 & w3 & e3 & H1 & H2 & H3 & Hrun).
  - reflexivity.
  - reflexivity.
  - intros w0. eexists _, _. reflexivity.
  - injection H1 as <- <-. injection H2 as <- <-. injection H3 as <- <-.
    exact Hrun.
Defined.

End exception_handler_facts.

(* ===================================================================== *)
(** * Communication hub: properties *)
(* ===================================================================== *)

Module communication_hub_facts.
Import python base_agent communication_hub communication_hub_spec.

Lemma dict_get_None {V : Type} (k : string) (d : dict V) :
  dict_get k d = None <-> k ∉ map fst d.
Proof.
  induction d as [|[k' v] d IH]; simpl.
  - split; [intros _; apply not_elem_of_nil|done].
  - rewrite not_elem_of_cons. destruct (decide (k = k')) as [->|Hne].
    + split; [done|]. by intros [? _].
    + rewrite IH. split; [done|]. by intros [_ ?].
Qed.

Section hub.
Context {World : Type}.
Implicit Types (hub : CommunicationHub World) (w : World).

(** ** Sending *)

(** C4. A message for a name that is not in the registry is refused: the
    result has [success = false], and the call leaves the hub and the
    store as they were, so the registry, the pending queue and the
    history of every object are unchanged. *)
Theorem send_message_unregistered_recipient hub (store : Store)
    (now : datetime) (sender recipient content : string)
    (metadata : option (gmap string string)) :
  recipient ∉ registered hub ->
  let '(result, hub', store') :=
    send_message now sender recipient content metadata hub store in
  success result = false /\
  agents hub' = agents hub /\
  message_queue hub' = message_queue hub /\
  (forall agent : ref, history (store' agent) = history (store agent)) /\
  hub' = hub /\
  store' = store.
Proof.
  intros Hnot. apply dict_get_None in Hnot.
  unfold send_message. rewrite Hnot. done.
Qed.

(** C10. When the registered recipient raises while it receives the
    message, [send_message] reports [success = false] with the text of
    the exception as its error, and the message it built is at the end of
    the pending queue all the same: the append happened before the
    delivery was tried, and the failed send does not take it back. *)
Theorem send_message_failed_delivery_stays_queued hub (store : Store)
    (now : datetime) (sender recipient content : string)
    (metadata : option (gmap string string))
    (recipient_agent : ref) (history' : option (list Message))
    (e : Exception) :
  let message :=
    mkMessage sender recipient content now (Some (default ∅ metadata)) in
  dict_get recipient (agents hub) = Some recipient_agent ->
  receive_message (store recipient_agent) message
                  (history (store recipient_agent))
    = (history', Some e) ->
  let '(result, hub', store') :=
    send_message now sender recipient content metadata hub store in
  success result = false /\
  error result = Some (str e) /\
  message_queue hub' = message_queue hub ++ [message] /\
  message_queue hub' <> message_queue hub.
Proof.
  intros message Hreg Hraise.
  unfold send_message. rewrite Hreg. fold message. rewrite Hraise. simpl.
  repeat split; try done.
  intros Heq. apply (f_equal length) in Heq.
  rewrite length_app in Heq. simpl in Heq. lia.
Qed.

(** ** History *)

Lemma slice_from_negative {A : Type} (n : Z) (l : list A) :
  (0 < n <= Z.of_nat (length l))%Z ->
  slice_from (- n) l = most_recent (Z.to_nat n) l.
Proof.
  intros Hn. unfold slice_from, most_recent.
  replace (- n <? 0)%Z with true by (symmetry; apply Z.ltb_lt; lia).
  f_equal. lia.
Qed.

(** For a positive limit the result is the most recent [limit] entries
    of the history, all of them when there are fewer; an unknown name and
    an object without a history give the empty list. *)
Lemma get_message_history_positive_limit hub (store : Store)
    (agent_name : string) (limit : Z) :
  (0 < limit)%Z ->
  get_message_history agent_name limit hub store
  = match history_of agent_name hub store with
    | Some h => most_recent (Z.to_nat limit) h
    | None => []
    end.
Proof.
  intros Hpos. unfold get_message_history, history_of.
  destruct (dict_get agent_name (agents hub)) as [agent|]; simpl; [|done].
  destruct (history (store agent)) as [h|]; [|done].
  destruct (limit <=? Z.of_nat (length h))%Z eqn:Hle.
  - apply Z.leb_le in Hle. by apply slice_from_negative.
  - apply Z.leb_gt in Hle. unfold most_recent.
    replace (length h - Z.to_nat limit)%nat with 0%nat by lia. done.
Qed.

(** With the limit 0 the test [len(history) >= limit] holds and the
    slice [history[-0:]] is the whole history. *)
Lemma get_message_history_limit_zero hub (store : Store)
    (agent_name : string) :
  get_message_history agent_name 0 hub store
  = default [] (history_of agent_name hub store).
Proof.
  unfold get_message_history, history_of.
  destruct (dict_get agent_name (agents hub)) as [agent|]; simpl; [|done].
  destruct (history (store agent)) as [h|]; [|done]. simpl.
  destruct (0 <=? Z.of_nat (length h))%Z; [|done].
  unfold slice_from. simpl.
  replace (Z.min (- 0) (Z.of_nat (length h))) with 0%Z by lia. done.
Qed.

(** ** Topics *)

(** The loop of [publish_to_topic] calls the handler of every item
    whose key contains the topic, and of no other, and appends one result
    for each. *)
Lemma publish_loop_call_each (topic content : string)
    (metadata : option (gmap string string))
    (items : list (string * Handler World)) : forall p : Published World,
  let subs := subscriptions_containing topic items in
  let '(outcomes, w') := call_each content metadata subs (world p) in
  publish_loop topic content metadata items p
  = mkPublished
      (results p ++
         zip_with (fun item => publish_result topic (split_head ":" (fst item)))
                  subs outcomes)
      w'
      (invoked p ++ map fst subs).
Proof.
  induction items as [|[handler_key handler] items IH]; intros p; simpl.
  - rewrite !app_nil_r. by destruct p.
  - destruct (contains topic handler_key) eqn:Hc; simpl.
    + destruct (handler content metadata (world p)) as [w1 outcome] eqn:Hh.
      specialize (IH (mkPublished
        (results p ++ [publish_result topic (split_head ":" handler_key) outcome])
        w1 (invoked p ++ [handler_key]))).
      simpl in IH.
      destruct (call_each content metadata
                  (subscriptions_containing topic items) w1)
        as [outcomes w2] eqn:Hrest.
      rewrite IH. simpl. by rewrite <- !app_assoc.
    + apply IH.
Qed.

Lemma call_each_length (content : string)
    (metadata : option (gmap string string))
    (subs : list (string * Handler World)) : forall w,
  length (fst (call_each content metadata subs w)) = length subs.
Proof.
  induction subs as [|[k handler] subs IH]; intros w; simpl; [done|].
  destruct (handler content metadata w) as [w1 outcome].
  specialize (IH w1).
  destruct (call_each content metadata subs w1) as [outcomes w2].
  simpl in *. by rewrite IH.
Qed.

(** C9. [publish_to_topic] calls the handlers of exactly the
    subscriptions whose composite key contains the published topic as a
    substring, each once and in the order of the table, whether or not an
    earlier handler raised; it returns one result per handler called, in
    the same order, and the result of a handler has [success = true] if
    that handler returned and [success = false] if it raised. *)
Theorem publish_to_topic_substring_subscriptions hub w
    (sender topic content : string)
    (metadata : option (gmap string string)) :
  let subs := subscriptions_containing topic (message_handlers hub) in
  let outcomes := fst (call_each content metadata subs w) in
  let p := publish_to_topic sender topic content metadata hub w in
  invoked p = map fst subs /\
  (forall handler_key,
     handler_key ∈ invoked p <->
     handler_key ∈ map fst (message_handlers hub) /\
     contains topic handler_key = true) /\
  world p = snd (call_each content metadata subs w) /\
  length (results p) = length (invoked p) /\
  results p
  = zip_with (fun item => publish_result topic (split_head ":" (fst item)))
             subs outcomes /\
  Forall2 (fun result outcome => success result = returned outcome)
          (results p) outcomes.
Proof.
  intros subs outcomes p.
  pose proof (publish_loop_call_each topic content metadata
                (message_handlers hub) (mkPublished [] w [])) as Hloop.
  pose proof (call_each_length content metadata subs w) as Hlen.
  simpl in Hloop. fold subs in Hloop. subst outcomes.
  destruct (call_each content metadata subs w) as [outcomes w'] eqn:Hcall.
  simpl in *. subst p. unfold publish_to_topic. rewrite Hloop. simpl.
  split; [done|]. split; [|split; [done|split; [|split; [done|]]]].
  - intros handler_key. unfold subs, subscriptions_containing.
    rewrite !list_elem_of_In, !in_map_iff. split.
    + intros ([k h] & <- & Hin). apply filter_In in Hin as [Hin Hc].
      split; [|done]. by exists (k, h).
    + intros [([k h] & <- & Hin) Hc]. exists (k, h). split; [done|].
      apply filter_In. done.
  - rewrite length_zip_with, length_map. lia.
  - clear Hloop Hcall. revert outcomes Hlen.
    induction subs as [|item subs' IH]; intros [|outcome outcomes] Hlen;
      simpl in *; try done; try constructor.
    + by destruct outcome.
    + apply IH. lia.
Qed.

End hub.

(** ** Instances *)

Local Open Scope Z_scope.

(** C8 fails on the code at the limit 0: asked for the most recent zero
    entries of a history of two messages, [get_message_history] returns
    both, where the claim has the empty sequence. *)
Theorem get_message_history_limit_zero_returns_all :
  let hub := register_agent "B" 1%nat (init (World := unit)) in
  history_of "B" hub objects = Some [hello; again] /\
  get_message_history "B" 0 hub objects = [hello; again] /\
  get_message_history "B" 0 hub objects <> [].
Proof. split; [reflexivity|]. split; [reflexivity|discriminate]. Qed.

Lemma send_message_unregistered_recipient_witness :
  let hub := register_agent "A" 0%nat (init (World := unit)) in
  ("B" ∉ registered hub) /\
  send_message 5 "A" "B" "hello" None hub objects
  = (mkCommunicationResult false "Recipient agent 'B' not found" None
       (Some "Agent 'B' is not registered"),
     hub, objects).
Proof.
  intros hub.
  assert ("B" ∉ registered hub) as Hnot.
  { unfold hub, registered. simpl. rewrite list_elem_of_singleton. done. }
  split; [exact Hnot|].
  pose proof (send_message_unregistered_recipient hub objects 5 "A" "B"
                "hello" None Hnot) as H.
  destruct (send_message 5 "A" "B" "hello" None hub objects)
    as [[result hub'] store'] eqn:Hsend.
  destruct H as (_ & _ & _ & _ & -> & ->).
  vm_compute in Hsend. injection Hsend as <-. reflexivity.
Defined.

Lemma send_message_failed_delivery_stays_queued_witness :
  let hub := register_agent "B" 2%nat (init (World := unit)) in
  let '(result, hub', _) :=
    send_message 5 "A" "B" "hello" None hub objects in
  success result = false /\
  message_queue hub' = [mkMessage "A" "B" "hello" 5 (Some ∅)].
Proof.
  intros hub.
  pose proof (send_message_failed_delivery_stays_queued hub objects 5
                "A" "B" "hello" None 2%nat (Some [])
                (mkException "ConnectionError" "agent offline")
                eq_refl eq_refl) as H.
  destruct (send_message 5 "A" "B" "hello" None hub objects)
    as [[result hub'] store'].
  destruct H as (H1 & _ & H3 & _). done.
Defined.

(** The scenario of the specification: ["A"] sends ["hello"] to ["B"]; the
    send succeeds and the history of ["B"] grows by that message. *)
Example send_hello_scenario :
  let hub := register_agent "B" 0%nat
               (register_agent "A" 3%nat (init (World := unit))) in
  let '(result, hub', store') :=
    send_message 5 "A" "B" "hello" None hub objects in
  success result = true /\
  history_of "B" hub objects = Some [] /\
  history_of "B" hub' store' = Some [mkMessage "A" "B" "hello" 5 (Some ∅)].
Proof. done. Qed.

(** One object registered under two names is one object: what is sent to
    it under one name is in the history seen under the other. *)
Example send_message_shared_object :
  let hub := register_agent "desk" 0%nat
               (register_agent "B" 0%nat (init (World := unit))) in
  let '(_, hub', store') :=
    send_message 5 "A" "B" "hello" None hub objects in
  history_of "desk" hub' store' = Some [mkMessage "A" "B" "hello" 5 (Some ∅)].
Proof. done. Qed.

(** A subscription whose handler raises does not keep the next one from
    being called, and each gets its own result. *)
Lemma publish_to_topic_substring_subscriptions_witness :
  let hub := subscribe_to_topic "bob" "billing" answering
               (subscribe_to_topic "amy" "bill" failing
                  (subscribe_to_topic "amy" "news" answering init)) in
  let p := publish_to_topic "A" "bill" "invoice" None hub 0%nat in
  invoked p = ["amy:bill"; "bob:billing"] /\
  map success (results p) = [false; true] /\
  world p = 2%nat.
Proof.
  intros hub p.
  destruct (publish_to_topic_substring_subscriptions hub 0%nat
              "A" "bill" "invoice" None)
    as (Hinvoked & _ & Hworld & _ & Hresults & _).
  fold p in Hinvoked, Hworld, Hresults.
  rewrite Hinvoked, Hresults, Hworld. repeat split.
Defined.

(** Substring matching crosses topics and agent names: publishing the
    topic ["bill"] reaches the handler that ["billy"] subscribed for the
    topic ["news"]. *)
Example publish_reaches_unrelated_subscription :
  let hub := subscribe_to_topic "billy" "news" answering init in
  invoked (publish_to_topic "A" "bill" "invoice" None hub 0%nat)
  = ["billy:news"].
Proof. reflexivity. Qed.

End communication_hub_facts.

(* ===================================================================== *)
(** * Goal tracker: further properties *)
(* ===================================================================== *)

Module goal_manager_more.
Import python goal_manager goal_manager_spec goal_manager_more_spec.
Import goal_manager_facts.

(** ** The table *)

(** X2. Goals are never deleted: after any run of calls the ids in the
    table are the ids that were there before together with the ids that
    the [create_goal] calls of the run used. An update adds no id, also
    not for an unknown goal. *)
Theorem goals_ids_after_run (calls : list (datetime * Call)) : forall m,
  dom (goals (run_calls calls m))
  = dom (goals m) ∪ list_to_set (created_ids calls).
Proof.
  induction calls as [|[now c] calls IH]; intros m.
  - simpl. by rewrite (right_id_L ∅ (∪)).
  - change (run_calls ((now, c) :: calls) m)
      with (run_calls calls (run_call m (now, c))).
    rewrite IH. destruct c as [gid desc dl md|gid st]; simpl.
    + rewrite dom_insert_L.
      rewrite (comm_L (∪) {[gid]} (dom (goals m))).
      by rewrite (assoc_L (∪)).
    + f_equal. unfold update_goal_status.
      destruct (goals m !! gid) as [g|] eqn:Hg; [|done]. simpl.
      apply dom_insert_lookup_L. by rewrite Hg.
Qed.

Lemma list_remove_first_other (x y : string) (l : list string) :
  x <> y -> x ∈ list_remove_first y l <-> x ∈ l.
Proof.
  intros Hne. split; [apply list_remove_first_subset|].
  induction l as [|z l IH]; simpl; [done|].
  rewrite elem_of_cons. destruct (decide (y = z)) as [->|Hyz].
  - intros [->|H]; done.
  - rewrite elem_of_cons. intros [->|H]; [by left|right; auto].
Qed.

Lemma run_call_other_goal m (c : datetime * Call) (goal_id : string) :
  call_goal_id (snd c) <> goal_id ->
  goals (run_call m c) !! goal_id = goals m !! goal_id /\
  ((goal_id ∈ active_goals (run_call m c)) <-> (goal_id ∈ active_goals m)).
Proof.
  destruct c as [now [gid desc dl md|gid st]]; simpl; intros Hne.
  - split; [by rewrite lookup_insert_ne|].
    rewrite elem_of_app, list_elem_of_singleton.
    split; [intros [?|?]; [done|congruence]|by left].
  - unfold update_goal_status.
    destruct (goals m !! gid) as [g|] eqn:Hg; [|done]. simpl.
    split; [by rewrite lookup_insert_ne|].
    destruct (terminal st).
    + case_bool_decide; [|done]. by apply list_remove_first_other.
    + destruct (bool_decide (gid ∉ active_goals m) && bool_decide (st ≠ PENDING));
        [|done].
      rewrite elem_of_app, list_elem_of_singleton.
      split; [intros [?|?]; [done|congruence]|by left].
Qed.

(** X3. A call touches one goal only: a goal that no call of a run is
    about keeps its record (or stays unknown), and it is in the active
    index after the run exactly if it was in it before. *)
Theorem run_calls_other_goal (calls : list (datetime * Call))
    (goal_id : string) : forall m,
  Forall (fun c => call_goal_id (snd c) <> goal_id) calls ->
  goals (run_calls calls m) !! goal_id = goals m !! goal_id /\
  ((goal_id ∈ active_goals (run_calls calls m)) <->
   (goal_id ∈ active_goals m)).
Proof.
  induction calls as [|c calls IH]; intros m Hcalls; [done|].
  apply Forall_cons in Hcalls as [Hc Hcalls].
  change (run_calls (c :: calls) m) with (run_calls calls (run_call m c)).
  destruct (IH (run_call m c) Hcalls) as [IH1 IH2].
  destruct (run_call_other_goal m c goal_id Hc) as [H1 H2].
  split; [congruence|]. by rewrite IH2.
Qed.

Lemma run_calls_other_goal_witness :
  let m := run_calls [(0, CreateGoal "g1" "first" None None);
                      (1, CreateGoal "g2" "second" None None)]%Z init in
  let m' := run_calls [(2, UpdateGoalStatus "g2" FAILED);
                       (3, CreateGoal "g3" "third" None None)]%Z m in
  goals m' !! "g1" = goals m !! "g1" /\ ("g1" ∈ active_goals m').
Proof.
  intros m m'.
  destruct (run_calls_other_goal
              [(2, UpdateGoalStatus "g2" FAILED);
               (3, CreateGoal "g3" "third" None None)]%Z "g1" m)
    as [Hrecord Hactive].
  - repeat constructor; simpl; discriminate.
  - split; [exact Hrecord|]. apply Hactive.
    apply elem_of_cons. by left.
Defined.

(** ** The active index *)

(** X1. As long as [create_goal] is only called with ids that are new
    to the table, the active index holds no id twice and
    [get_active_goals] returns no goal whose status is completed, failed
    or cancelled. *)
Theorem fresh_ids_active_goals_open (calls : list (datetime * Call)) :
  fresh_ids calls init ->
  NoDup (active_goals (run_calls calls init)) /\
  Forall (fun g => terminal (status g) = false)
         (get_active_goals (run_calls calls init)).
Proof.
  intros Hfresh.
  destruct (fresh_ids_active_index_ok calls init init_active_index_ok Hfresh)
    as [Hnd Hopen].
  split; [exact Hnd|].
  apply Forall_forall. intros g Hg.
  apply get_active_goals_elem in Hg as (gid & Hgid & Hg).
  destruct (Hopen gid Hgid) as (g' & Hg' & Hterm). congruence.
Qed.

Lemma fresh_ids_active_goals_open_witness :
  let calls := [(0, CreateGoal "g1" "first" None None);
                (1, CreateGoal "g2" "second" None None);
                (2, UpdateGoalStatus "g1" COMPLETED);
                (3, UpdateGoalStatus "g2" IN_PROGRESS)]%Z in
  Forall (fun g => terminal (status g) = false)
         (get_active_goals (run_calls calls init)).
Proof.
  intros calls.
  apply (fresh_ids_active_goals_open calls). by repeat split.
Defined.

Lemma get_active_goals_ids_table_ok (m : GoalManager) :
  table_ok m -> id <$> get_active_goals m = active_goals m.
Proof.
  intros [Hid Hact]. unfold get_active_goals.
  induction (active_goals m) as [|gid l IH]; [done|]. simpl.
  destruct (Hact gid) as [g Hg]; [by left|]. rewrite Hg. simpl.
  rewrite (Hid gid g Hg). f_equal. apply IH.
  intros k Hk. apply Hact. by right.
Qed.

(** X4. In every state that calls lead to, [get_active_goals] returns
    the goals of the active index in the order of the index, one for
    each entry: their ids are the entries of the index. *)
Theorem get_active_goals_ids (calls : list (datetime * Call)) :
  let m := run_calls calls init in
  id <$> get_active_goals m = active_goals m.
Proof.
  intros m. apply get_active_goals_ids_table_ok.
  apply run_calls_table_ok, init_table_ok.
Qed.

(** X5. A goal that has left the active index through a terminal status
    comes back when it is set to [IN_PROGRESS], at the end of the index,
    and does not come back when it is set to [PENDING]: it is then a
    pending goal that [get_active_goals] and [monitor_goals] pass over. *)
Theorem reopened_goal_active_index (m : GoalManager) (goal_id : string)
    (g : Goal) (now1 now2 : datetime) (st : GoalStatus) :
  active_index_ok m ->
  goals m !! goal_id = Some g ->
  terminal st = true ->
  let m1 := update_goal_status now1 goal_id st m in
  let pending := update_goal_status now2 goal_id PENDING m1 in
  let in_progress := update_goal_status now2 goal_id IN_PROGRESS m1 in
  (goal_id ∉ active_goals m1) /\
  status <$> goals pending !! goal_id = Some PENDING /\
  active_goals pending = active_goals m1 /\
  status <$> goals in_progress !! goal_id = Some IN_PROGRESS /\
  active_goals in_progress = active_goals m1 ++ [goal_id].
Proof.
  intros [Hnd _] Hg Hst m1 pending in_progress.
  assert (goal_id ∉ active_goals m1) as Hout.
  { subst m1. unfold update_goal_status. rewrite Hg, Hst. simpl.
    case_bool_decide as Hin; [|done].
    by apply list_remove_first_NoDup. }
  assert (exists g1, goals m1 !! goal_id = Some g1) as [g1 Hg1].
  { subst m1. unfold update_goal_status. rewrite Hg. simpl.
    rewrite lookup_insert_eq. by eexists. }
  split; [exact Hout|].
  subst pending in_progress. unfold update_goal_status.
  rewrite Hg1. simpl. rewrite !lookup_insert_eq. simpl.
  rewrite (bool_decide_eq_true_2 (goal_id ∉ active_goals m1)); [|done].
  done.
Qed.

Lemma reopened_goal_active_index_witness :
  let m := run_calls [(0, CreateGoal "g1" "first" None None)]%Z init in
  let m1 := update_goal_status 1%Z "g1" CANCELLED m in
  active_goals (update_goal_status 2%Z "g1" PENDING m1) = [] /\
  active_goals (update_goal_status 2%Z "g1" IN_PROGRESS m1) = ["g1"].
Proof.
  intros m m1.
  destruct (reopened_goal_active_index m "g1"
              (mkGoal "g1" "first" PENDING 0%Z None None ∅ []) 1%Z 2%Z CANCELLED)
    as (_ & _ & Hpending & _ & Hprogress).
  - apply (fresh_ids_active_index_ok
             [(0, CreateGoal "g1" "first" None None)]%Z init
             init_active_index_ok).
    by repeat split.
  - reflexivity.
  - reflexivity.
  - fold m1 in Hpending, Hprogress. rewrite Hpending, Hprogress. by split.
Defined.

(** ** Progress and monitoring *)

Lemma total_seconds_le (a b : Z) :
  (a <= b)%Z -> (total_seconds a <= total_seconds b)%Q.
Proof. intros H. unfold total_seconds, Qle. simpl. lia. Qed.

Lemma time_progress_le_1 now g : (time_progress now g <= 1)%Q.
Proof.
  unfold time_progress. destruct (deadline g) as [d|]; [|done].
  destruct (Qlt_le_dec 0 (total_seconds (d - created_at g))); [|done].
  apply Q.le_min_l.
Qed.

Lemma time_progress_nonneg now g :
  (created_at g <= now)%Z -> (0 <= time_progress now g)%Q.
Proof.
  intros Hclock. unfold time_progress. destruct (deadline g) as [d|]; [|done].
  destruct (Qlt_le_dec 0 (total_seconds (d - created_at g))) as [Hpos|Hneg];
    [|apply Qle_refl].
  apply Q.min_glb; [done|].
  apply Qdiv_nonneg; [|done]. apply total_seconds_nonneg. lia.
Qed.

(** X6. The progress of a goal is never above 1, and on a clock that
    reads no earlier than the creation time of the goal it is never below
    0: under that condition [get_goal_progress] returns a number between
    0 and 1 for every goal id, known or not. *)
Theorem get_goal_progress_bounds (now : datetime) (goal_id : string)
    (m : GoalManager) :
  (get_goal_progress now goal_id m <= 1)%Q /\
  ((forall g, goals m !! goal_id = Some g -> (created_at g <= now)%Z) ->
   (0 <= get_goal_progress now goal_id m)%Q).
Proof.
  unfold get_goal_progress.
  destruct (goals m !! goal_id) as [g|]; [|done].
  split.
  - destruct (status g); try done; apply time_progress_le_1.
  - intros Hclock.
    destruct (status g); try done; apply time_progress_nonneg; by apply Hclock.
Qed.

Lemma get_goal_progress_bounds_witness :
  let m := run_calls [(100, CreateGoal "g1" "desc" (Some 200) None)]%Z init in
  (0 <= get_goal_progress 1000%Z "g1" m)%Q /\
  (get_goal_progress 1000%Z "g1" m <= 1)%Q.
Proof.
  intros m.
  destruct (get_goal_progress_bounds 1000%Z "g1" m) as [Hle Hge].
  split; [|exact Hle]. apply Hge.
  intros g Hg. vm_compute in Hg. injection Hg as <-. simpl. lia.
Defined.

(** X7. Progress does not go back as time passes: for a manager in a
    given state, a later clock reading never gives a smaller progress
    than an earlier one. *)
Theorem get_goal_progress_monotone (now1 now2 : datetime)
    (goal_id : string) (m : GoalManager) :
  (now1 <= now2)%Z ->
  (get_goal_progress now1 goal_id m <= get_goal_progress now2 goal_id m)%Q.
Proof.
  intros Hnow. unfold get_goal_progress.
  destruct (goals m !! goal_id) as [g|]; [|apply Qle_refl].
  assert (time_progress now1 g <= time_progress now2 g)%Q as Htime.
  { unfold time_progress. destruct (deadline g) as [d|]; [|apply Qle_refl].
    destruct (Qlt_le_dec 0 (total_seconds (d - created_at g))) as [Hpos|Hneg];
      [|apply Qle_refl].
    apply Q.min_le_compat_l. unfold Qdiv.
    apply Qmult_le_compat_r.
    - apply total_seconds_le. lia.
    - apply Qinv_le_0_compat. by apply Qlt_le_weak. }
  destruct (status g); try apply Qle_refl; exact Htime.
Qed.

Lemma get_goal_progress_monotone_witness :
  let m := run_calls [(100, CreateGoal "g1" "desc" (Some 200) None)]%Z init in
  (get_goal_progress 120%Z "g1" m <= get_goal_progress 180%Z "g1" m)%Q.
Proof.
  intros m. apply (get_goal_progress_monotone 120%Z 180%Z "g1" m). lia.
Defined.

Lemma monitor_one_length now gid g m :
  (length (monitor_one now gid g m) <= 2)%nat.
Proof.
  unfold monitor_one. rewrite length_app.
  destruct (is_expired now g && bool_decide (status g ≠ COMPLETED));
    destruct (_ && _); simpl; lia.
Qed.

Lemma monitor_loop_length now m (ids : list string) : forall acc alerts,
  monitor_loop now m ids acc = Ok alerts ->
  (length alerts <= length acc + 2 * length ids)%nat.
Proof.
  induction ids as [|gid ids IH]; intros acc alerts; simpl.
  - intros [= <-]. lia.
  - destruct (goals m !! gid) as [g|]; [|done].
    intros Hrun. apply IH in Hrun. rewrite length_app in Hrun.
    pose proof (monitor_one_length now gid g m). lia.
Qed.

(** A call of [monitor_goals] that returns gives at most two alerts
    for each entry of the active index. *)
Theorem monitor_goals_at_most_two_alerts_each (now : datetime)
    (m : GoalManager) (alerts : list Alert) :
  monitor_goals now m = Ok alerts ->
  (length alerts <= 2 * length (active_goals m))%nat.
Proof.
  intros Hrun. apply monitor_loop_length in Hrun. simpl in Hrun. lia.
Qed.

Lemma monitor_goals_at_most_two_alerts_each_witness :
  let m := run_calls [(0, CreateGoal "g1" "desc" (Some 10) None)]%Z init in
  exists alerts,
    monitor_goals 7200000000%Z m = Ok alerts /\ (length alerts <= 2)%nat.
Proof.
  intros m. eexists. split; [reflexivity|].
  apply (monitor_goals_at_most_two_alerts_each 7200000000%Z m).
  reflexivity.
Defined.

(** X8. As long as [create_goal] is only called with ids that are new
    to the table, a goal without a deadline gets no alert from
    [monitor_goals], of either type and however old it is: it cannot
    expire, and its progress is counted as one half. *)
Theorem no_deadline_no_alert (calls : list (datetime * Call))
    (now : datetime) (goal_id : string) (g : Goal) (alerts : list Alert) :
  let m := run_calls calls init in
  fresh_ids calls init ->
  goals m !! goal_id = Some g ->
  deadline g = None ->
  monitor_goals now m = Ok alerts ->
  forall a, a ∈ alerts -> alert_goal_id a <> goal_id.
Proof.
  intros m Hfresh Hg Hnone Hrun a Ha Hgid.
  destruct (run_calls_table_ok calls init init_table_ok) as [Hid Hact].
  destruct (fresh_ids_active_index_ok calls init init_active_index_ok Hfresh)
    as [_ Hopen].
  fold m in Hid, Hact, Hopen.
  destruct (monitor_loop_alerts now m (active_goals m) [] Hact)
    as (out & Hout & Hmem).
  unfold monitor_goals in Hrun. rewrite Hout in Hrun.
  injection Hrun as <-. simpl in Ha.
  apply Hmem in Ha as (k & g' & Hk & Hg' & Ha).
  assert (alert_goal_id a = id g') as Hida.
  { unfold monitor_one in Ha. apply elem_of_app in Ha as [Ha|Ha].
    - destruct (_ && _); [|by apply elem_of_nil in Ha].
      apply list_elem_of_singleton in Ha. by subst a.
    - destruct (_ && _); [|by apply elem_of_nil in Ha].
      apply list_elem_of_singleton in Ha. by subst a. }
  rewrite (Hid k g' Hg') in Hida. assert (k = goal_id) as -> by congruence.
  assert (g' = g) as -> by congruence.
  destruct (Hopen goal_id Hk) as (g0 & Hg0 & Hterm).
  assert (g0 = g) as -> by congruence.
  unfold monitor_one, is_expired in Ha. rewrite Hnone in Ha. simpl in Ha.
  unfold get_goal_progress in Ha. rewrite Hg in Ha.
  assert (match status g with
          | COMPLETED => 1%Q
          | FAILED | CANCELLED => 0%Q
          | PENDING | IN_PROGRESS => time_progress now g
          end = (1 # 2)%Q) as Hhalf.
  { unfold time_progress. rewrite Hnone. by destruct (status g). }
  rewrite Hhalf in Ha.
  destruct (Qlt_le_dec (1 # 2) (1 # 10)) as [Hlt|_]; [by vm_compute in Hlt|].
  simpl in Ha. by apply elem_of_nil in Ha.
Qed.

Lemma no_deadline_no_alert_witness :
  let m := run_calls [(0, CreateGoal "g1" "desc" None None)]%Z init in
  exists alerts,
    monitor_goals 7200000000%Z m = Ok alerts /\
    forall a, a ∈ alerts -> alert_goal_id a <> "g1".
Proof.
  intros m. eexists. split; [reflexivity|].
  apply (no_deadline_no_alert
           [(0, CreateGoal "g1" "desc" None None)]%Z 7200000000%Z "g1"
           (mkGoal "g1" "desc" PENDING 0%Z None None ∅ [])).
  - by split.
  - reflexivity.
  - reflexivity.
  - reflexivity.
Defined.

End goal_manager_more.

(* ===================================================================== *)
(** * Exception recovery engine: further properties *)
(* ===================================================================== *)

Module exception_handler_more.
Import python exception_handler exception_handler_spec.
Import exception_handler_more_spec exception_handler_facts.

Section retry.
Context {World Value : Type}.
Implicit Types (operation : Operation World Value) (w : World).

Lemma retry_loop_successful_attempt operation (max_retries i : Z)
    (indices : list Z) w w' v trace :
  operation w = (w', Ok v) ->
  retry_loop operation max_retries (i :: indices) (w, trace)
  = (Ok (Some v), (w', trace ++ [Invoked])).
Proof. intros Hop. simpl. by rewrite Hop. Qed.

Lemma retry_loop_succeeds_after operation (max_retries : Z) :
  forall (k n i : nat) w w' v trace,
    succeeds_after operation k w w' v ->
    (k < n)%nat ->
    Z.of_nat (i + n) = max_retries ->
    retry_loop operation max_retries (map Z.of_nat (seq i n)) (w, trace)
    = (Ok (Some v), (w', trace ++ failed_attempts i k ++ [Invoked])).
Proof.
  intros k n i w w' v trace Hsucc. revert n i trace.
  induction Hsucc as [w w' v Hop | k w w1 e w' v Hop Hsucc IH];
    intros n i trace Hk Hmax.
  - destruct n as [|n]; [lia|].
    change (map Z.of_nat (seq i (S n)))
      with (Z.of_nat i :: map Z.of_nat (seq (S i) n)).
    by rewrite (retry_loop_successful_attempt _ _ _ _ _ _ _ _ Hop).
  - destruct n as [|n]; [lia|].
    change (map Z.of_nat (seq i (S n)))
      with (Z.of_nat i :: map Z.of_nat (seq (S i) n)).
    rewrite (retry_loop_failed_attempt _ _ _ _ _ _ _ _ Hop).
    replace (Z.of_nat i =? max_retries - 1)%Z with false
      by (symmetry; apply Z.eqb_neq; lia).
    rewrite (IH n (S i)) by lia.
    change (failed_attempts i (S k))
      with (Invoked :: Slept (2 ^ Z.of_nat i) :: failed_attempts (S i) k).
    by rewrite <- !app_assoc.
Qed.

(** X9. Under [RETRY], an operation that fails [k] times and then
    returns, with [k] below [max_retries], is called [k + 1] times; the
    run is suspended for [2^i] after the failed attempt of index [i], and
    the value of the first successful call is returned at once, without
    a further call or suspension. *)
Theorem retry_returns_first_success operation exception_info kwargs
    (k : nat) w w' (v : Value) trace :
  recovery_strategy exception_info = RETRY ->
  (Z.of_nat k < default 3 (max_retries kwargs))%Z ->
  succeeds_after operation k w w' v ->
  apply_recovery_strategy exception_info operation kwargs (w, trace)
  = (Ok (Some v), (w', trace ++ failed_attempts 0 k ++ [Invoked])).
Proof.
  intros Hretry Hk Hsucc.
  unfold apply_recovery_strategy. rewrite Hretry. unfold range.
  apply retry_loop_succeeds_after; [done|lia|lia].
Qed.

(** X11. Under [RETRY] with [max_retries] zero or negative the operation
    is not called at all, and [apply_recovery_strategy] returns [None]:
    the failure that is being recovered from is dropped without a
    trace. *)
Theorem retry_without_attempts operation exception_info kwargs w trace :
  recovery_strategy exception_info = RETRY ->
  (default 3 (max_retries kwargs) <= 0)%Z ->
  apply_recovery_strategy exception_info operation kwargs (w, trace)
  = (Ok None, (w, trace)).
Proof.
  intros Hretry Hmax. unfold apply_recovery_strategy. rewrite Hretry.
  unfold range. by replace (Z.to_nat (default 3%Z (max_retries kwargs)))
    with 0%nat by lia.
Qed.

Lemma invocations_app (t1 t2 : list Event) :
  invocations (t1 ++ t2) = (invocations t1 + invocations t2)%nat.
Proof. unfold invocations. by rewrite List.filter_app, length_app. Qed.

Lemma retry_loop_invocations operation (max_retries : Z) (indices : list Z) :
  forall w trace out w' trace',
    retry_loop operation max_retries indices (w, trace) = (out, (w', trace')) ->
    exists added,
      trace' = trace ++ added /\
      (invocations added <= length indices)%nat.
Proof.
  induction indices as [|i indices IH]; intros w trace out w' trace'; simpl.
  - intros [= _ _ <-]. exists []. by rewrite app_nil_r.
  - destruct (operation w) as [w1 [v|e]].
    + intros [= _ _ <-]. exists [Invoked]. split; [done|]. unfold invocations. simpl. lia.
    + destruct (i =? max_retries - 1)%Z.
      * intros [= _ _ <-]. exists [Invoked]. split; [done|]. unfold invocations. simpl. lia.
      * intros Hrest. apply IH in Hrest as (added & -> & Hcount).
        exists ([Invoked; Slept (2 ^ i)] ++ added). split.
        -- by rewrite <- !app_assoc.
        -- rewrite invocations_app. change (invocations [Invoked; Slept (2 ^ i)]) with 1%nat.
           simpl. lia.
Qed.

(** X12. [apply_recovery_strategy] only adds to the record of events,
    and it calls the operation at most [max_retries] times under [RETRY]
    and never under [FALLBACK], [ESCALATE] or [IGNORE], whatever the
    operation does. *)
Theorem apply_recovery_strategy_invocations operation exception_info kwargs
    w trace :
  let '(_, (_, trace')) :=
    apply_recovery_strategy exception_info operation kwargs (w, trace) in
  exists added,
    trace' = trace ++ added /\
    (invocations added <=
     match recovery_strategy exception_info with
     | RETRY => Z.to_nat (default 3%Z (max_retries kwargs))
     | _ => 0
     end)%nat.
Proof.
  unfold apply_recovery_strategy.
  destruct (recovery_strategy exception_info).
  - destruct (retry_loop _ _ _ _) as [out [w' trace']] eqn:Hloop.
    apply retry_loop_invocations in Hloop as (added & -> & Hcount).
    exists added. split; [done|].
    unfold range in Hcount. by rewrite length_map, length_seq in Hcount.
  - destruct (fallback_operation kwargs) as [fallback|].
    + destruct (fallback w) as [w' outcome]. by exists [InvokedFallback].
    + exists []. by rewrite app_nil_r.
  - exists []. by rewrite app_nil_r.
  - exists []. by rewrite app_nil_r.
Qed.

End retry.

Lemma total_slept_backoff_trace (n i : nat) :
  total_slept (backoff_trace i (S n))
  = (2 ^ Z.of_nat (i + n) - 2 ^ Z.of_nat i)%Z.
Proof.
  revert i. induction n as [|n IH]; intros i.
  - simpl. replace (i + 0)%nat with i by lia. lia.
  - change (backoff_trace i (S (S n)))
      with (Invoked :: Slept (2 ^ Z.of_nat i) :: backoff_trace (S i) (S n)).
    cbn [total_slept]. rewrite IH.
    replace (Z.of_nat (S i + n)) with (Z.of_nat (i + S n)) by lia.
    replace (Z.of_nat (S i)) with (Z.of_nat i + 1)%Z by lia.
    rewrite Z.pow_add_r by lia. lia.
Qed.

Lemma invocations_backoff_trace (n i : nat) :
  invocations (backoff_trace i n) = n.
Proof.
  revert i. induction n as [|n IH]; intros i; [done|].
  destruct n as [|n]; [done|].
  change (backoff_trace i (S (S n)))
    with (Invoked :: Slept (2 ^ Z.of_nat i) :: backoff_trace (S i) (S n)).
  change (invocations (Invoked :: Slept (2 ^ Z.of_nat i) :: backoff_trace (S i) (S n)))
    with (S (invocations (backoff_trace (S i) (S n)))).
  by rewrite IH.
Qed.

(** X10. Under [RETRY] with [max_retries = n >= 1], an operation that
    fails on every call is called exactly [n] times, the exception of
    its last call is raised, and the suspensions between the attempts
    add up to [2^(n-1) - 1]. *)
Theorem retry_exhausted_total_backoff {World Value : Type}
    (operation : Operation World Value) exception_info kwargs
    (n : nat) (w : World) trace :
  recovery_strategy exception_info = RETRY ->
  default 3%Z (max_retries kwargs) = Z.of_nat (S n) ->
  (forall w0, exists w1 e, operation w0 = (w1, Err e)) ->
  exists w' e added,
    fails_in_a_row operation (S n) w w' e /\
    apply_recovery_strategy exception_info operation kwargs (w, trace)
    = (Err e, (w', trace ++ added)) /\
    invocations added = S n /\
    total_slept added = (2 ^ Z.of_nat n - 1)%Z.
Proof.
  intros Hretry Hmax Hfail.
  destruct (retry_always_failing operation exception_info kwargs n w trace
              Hretry Hmax Hfail) as (w' & e & Hrow & Hrun).
  exists w', e, (backoff_trace 0 (S n)). split; [done|]. split; [done|].
  split; [apply invocations_backoff_trace|].
  rewrite total_slept_backoff_trace. simpl. lia.
Qed.

Lemma retry_exhausted_total_backoff_witness :
  exists added,
    apply_recovery_strategy
      (mkExceptionInfo CONNECTION_ERROR "down" ∅ RETRY 0%Z [])
      always_down (mkKwargs (Some 5%Z) None None) (0%nat, [])
    = (Err (mkException "ConnectionError" "later call failed"),
       (5%nat, added)) /\
    invocations added = 5%nat /\ total_slept added = 15%Z.
Proof.
  destruct (retry_exhausted_total_backoff always_down
              (mkExceptionInfo CONNECTION_ERROR "down" ∅ RETRY 0%Z [])
              (mkKwargs (Some 5%Z) None None) 4 0%nat [])
    as (w' & e & added & _ & Hrun & Hcalls & Hslept).
  - reflexivity.
  - reflexivity.
  - intros w0. eexists _, _. reflexivity.
  - exists added. vm_compute in Hrun. injection Hrun as <- <- <-.
    split; [reflexivity|]. split; [exact Hcalls|exact Hslept].
Defined.

Lemma retry_returns_first_success_witness :
  apply_recovery_strategy
    (mkExceptionInfo TIMEOUT_ERROR "timed out" ∅ RETRY 0%Z [])
    third_time_lucky (mkKwargs None None None) (0%nat, [])
  = (Ok (Some 3%nat),
     (3%nat, [Invoked; Slept 1; Invoked; Slept 2; Invoked])).
Proof.
  apply (retry_returns_first_success third_time_lucky
           (mkExceptionInfo TIMEOUT_ERROR "timed out" ∅ RETRY 0%Z [])
           (mkKwargs None None None) 2 0%nat 3%nat 3%nat []).
  - reflexivity.
  - reflexivity.
  - eapply succeeds_later; [reflexivity|].
    eapply succeeds_later; [reflexivity|].
    apply succeeds_now. reflexivity.
Defined.

Lemma retry_without_attempts_witness :
  apply_recovery_strategy
    (mkExceptionInfo CONNECTION_ERROR "down" ∅ RETRY 0%Z [])
    always_down (mkKwargs (Some 0%Z) None None) (0%nat, [])
  = (Ok None, (0%nat, [])).
Proof.
  apply (retry_without_attempts always_down
           (mkExceptionInfo CONNECTION_ERROR "down" ∅ RETRY 0%Z [])
           (mkKwargs (Some 0%Z) None None) 0%nat []).
  - reflexivity.
  - simpl. lia.
Defined.

(** ** Handling *)

(** X13. With the tables as [__init__] leaves them, [handle_exception]
    returns a record with the kind that classification gives, the text of
    the exception as its message, and the strategy of that kind: retry
    for connection and timeout errors, escalate for business and system
    errors, ignore for validation errors and for unknown ones. It logs
    the exception as an error, followed by one record of the hook of the
    kind at its severity, and by nothing for an unknown error. *)
Theorem handle_exception_defaults (now : datetime) (stack : list string)
    (exception : Exception) (ctx : option (gmap string string)) :
  let '(info, logged) := handle_exception now stack exception ctx init in
  let kind := _classify_exception exception in
  exception_type info = kind /\
  message info = str exception /\
  recovery_strategy info = default_strategy kind /\
  fst <$> logged
  = ERROR :: match default_severity kind with
             | Some level => [level]
             | None => []
             end.
Proof.
  unfold handle_exception.
  destruct (_classify_exception exception); by vm_compute.
Qed.

End exception_handler_more.

(* ===================================================================== *)
(** * Communication hub: further properties *)
(* ===================================================================== *)

Module communication_hub_more.
Import python base_agent communication_hub communication_hub_spec.
Import communication_hub_more_spec communication_hub_facts.

(** ** Dictionaries *)

Section dict.
Context {V : Type}.
Implicit Types (d : dict V) (k : string) (v : V).

Lemma dict_get_set_eq k v d : dict_get k (dict_set k v d) = Some v.
Proof.
  induction d as [|[k' v'] d IH]; simpl.
  - by rewrite decide_True.
  - destruct (decide (k = k')) as [->|Hne]; simpl.
    + by rewrite decide_True.
    + by rewrite decide_False.
Qed.

Lemma dict_get_set_ne k k' v d :
  k <> k' -> dict_get k' (dict_set k v d) = dict_get k' d.
Proof.
  intros Hne. induction d as [|[k0 v0] d IH]; simpl.
  - by rewrite decide_False.
  - destruct (decide (k = k0)) as [->|Hk]; simpl.
    + by rewrite !decide_False.
    + destruct (decide (k' = k0)); [done|apply IH].
Qed.

Lemma dict_set_keys k v d :
  map fst (dict_set k v d)
  = if bool_decide (k ∈ map fst d) then map fst d else map fst d ++ [k].
Proof.
  induction d as [|[k' v'] d IH]; simpl; [done|].
  destruct (decide (k = k')) as [->|Hne]; simpl.
  - rewrite bool_decide_eq_true_2; [done|by left].
  - rewrite IH. case_bool_decide as Hin.
    + rewrite bool_decide_eq_true_2; [done|by right].
    + rewrite bool_decide_eq_false_2; [done|].
      rewrite not_elem_of_cons. done.
Qed.

Lemma dict_set_NoDup k v d :
  NoDup (map fst d) -> NoDup (map fst (dict_set k v d)).
Proof.
  intros Hnd. rewrite dict_set_keys. case_bool_decide as Hin; [done|].
  apply NoDup_app. split; [done|]. split; [|apply NoDup_singleton].
  intros x Hx Hx'. apply list_elem_of_singleton in Hx' as ->. done.
Qed.

Lemma dict_del_keys_subset k k' d :
  k' ∈ map fst (dict_del k d) -> k' ∈ map fst d.
Proof.
  induction d as [|[k0 v0] d IH]; simpl; [done|].
  destruct (decide (k = k0)) as [->|Hne]; simpl.
  - intros H. by right.
  - rewrite !elem_of_cons. intros [->|H]; [by left|right; auto].
Qed.

Lemma dict_del_NoDup k d :
  NoDup (map fst d) ->
  NoDup (map fst (dict_del k d)) /\ k ∉ map fst (dict_del k d).
Proof.
  induction d as [|[k0 v0] d IH]; simpl.
  - intros _. split; [constructor|apply not_elem_of_nil].
  - intros [Hk0 Hnd]%NoDup_cons.
    destruct (decide (k = k0)) as [->|Hne]; simpl; [done|].
    destruct (IH Hnd) as [IH1 IH2]. split.
    + constructor; [|done]. intros Hin. apply Hk0.
      by eapply dict_del_keys_subset.
    + rewrite not_elem_of_cons. done.
Qed.

Lemma dict_get_del_ne k k' d :
  k <> k' -> dict_get k' (dict_del k d) = dict_get k' d.
Proof.
  intros Hne. induction d as [|[k0 v0] d IH]; simpl; [done|].
  destruct (decide (k = k0)) as [->|Hk]; simpl.
  - by rewrite decide_False.
  - destruct (decide (k' = k0)); [done|apply IH].
Qed.

Lemma dict_del_set_fresh k v d :
  k ∉ map fst d -> dict_del k (dict_set k v d) = d.
Proof.
  induction d as [|[k0 v0] d IH]; simpl; intros Hnot.
  - by rewrite decide_True.
  - apply not_elem_of_cons in Hnot as [Hne Hnot].
    rewrite decide_False by done. simpl. rewrite decide_False by done.
    by rewrite IH.
Qed.

Lemma dict_get_Some_key k v d : dict_get k d = Some v -> k ∈ map fst d.
Proof.
  intros Hget. destruct (decide (k ∈ map fst d)) as [|Hnot]; [done|].
  apply dict_get_None in Hnot. congruence.
Qed.

Lemma dict_get_is_Some k d : k ∈ map fst d -> is_Some (dict_get k d).
Proof.
  intros Hin. destruct (dict_get k d) as [v|] eqn:Hget; [done|].
  by apply dict_get_None in Hget.
Qed.

End dict.

Section hub.
Context {World : Type}.
Implicit Types (hub : CommunicationHub World) (w : World).

(** ** The registry *)

(** X14. Registering a name that is not in the registry and
    unregistering it again gives back the hub as it was; in between, the
    name stands for the registered object and every other name for what
    it stood for before. *)
Theorem register_unregister_round_trip hub (agent_name : string)
    (agent_instance : ref) :
  agent_name ∉ registered hub ->
  let hub' := register_agent agent_name agent_instance hub in
  dict_get agent_name (agents hub') = Some agent_instance /\
  (forall other, other <> agent_name ->
     dict_get other (agents hub') = dict_get other (agents hub)) /\
  unregister_agent agent_name hub' = hub.
Proof.
  intros Hfresh hub'. subst hub'. unfold register_agent, unregister_agent.
  simpl. rewrite dict_get_set_eq. split; [done|]. split.
  - intros other Hne. by apply dict_get_set_ne.
  - rewrite dict_del_set_fresh by done. by destruct hub.
Qed.

Lemma run_hub_calls_NoDup (calls : list (HubCall World)) : forall hub,
  NoDup (registered hub) /\ NoDup (map fst (message_handlers hub)) ->
  let hub' := run_hub_calls calls hub in
  NoDup (registered hub') /\ NoDup (map fst (message_handlers hub')).
Proof.
  induction calls as [|c calls IH]; intros hub Hhub; [done|].
  apply IH. destruct Hhub as [Hnames Hkeys].
  destruct c as [name r|name|name topic handler]; simpl.
  - split; [|done]. by apply dict_set_NoDup.
  - unfold unregister_agent.
    destruct (dict_get name (agents hub)); [|done].
    split; [|done]. by apply dict_del_NoDup.
  - split; [done|]. by apply dict_set_NoDup.
Qed.

(** X15. In every hub that calls of [register_agent],
    [unregister_agent] and [subscribe_to_topic] lead to, a name that has
    just been unregistered is not registered any more, whatever was
    registered under it and however often: the next [send_message] to it
    is refused and changes nothing. The other names keep their
    objects. *)
Theorem unregistered_agent_is_unknown (calls : list (HubCall World))
    (agent_name : string) (store : Store) (now : datetime)
    (sender content : string) (metadata : option (gmap string string)) :
  let hub := unregister_agent agent_name (run_hub_calls calls init) in
  (agent_name ∉ registered hub) /\
  (forall other, other <> agent_name ->
     dict_get other (agents hub)
     = dict_get other (agents (run_hub_calls calls init))) /\
  let '(result, hub', store') :=
    send_message now sender agent_name content metadata hub store in
  success result = false /\ hub' = hub /\ store' = store.
Proof.
  intros hub.
  destruct (run_hub_calls_NoDup calls init) as [Hnames _].
  { split; constructor. }
  assert (agent_name ∉ registered hub) as Hout.
  { subst hub. unfold unregister_agent.
    destruct (dict_get agent_name (agents (run_hub_calls calls init)))
      as [r|] eqn:Hget.
    - unfold registered. simpl. by apply dict_del_NoDup.
    - by apply dict_get_None in Hget. }
  split; [exact Hout|]. split.
  - intros other Hne. subst hub. unfold unregister_agent.
    destruct (dict_get agent_name (agents (run_hub_calls calls init))); [|done].
    simpl. by apply dict_get_del_ne.
  - apply dict_get_None in Hout. unfold send_message. by rewrite Hout.
Qed.

(** ** Sending *)

(** X16. A message for a registered object that receives the way
    [BaseAgent] does is delivered: the send succeeds, the message is the
    new last entry of the recipient's history and of the pending queue,
    and no other object, the registry and the subscriptions are not
    touched. *)
Theorem send_message_delivers hub (store : Store) (now : datetime)
    (sender recipient content : string)
    (metadata : option (gmap string string))
    (recipient_agent : ref) (h : list Message) :
  let message :=
    mkMessage sender recipient content now (Some (default ∅ metadata)) in
  dict_get recipient (agents hub) = Some recipient_agent ->
  store recipient_agent = BaseAgent h ->
  let '(result, hub', store') :=
    send_message now sender recipient content metadata hub store in
  success result = true /\
  history_of recipient hub' store' = Some (h ++ [message]) /\
  message_queue hub' = message_queue hub ++ [message] /\
  (forall other : ref, other <> recipient_agent -> store' other = store other) /\
  agents hub' = agents hub /\
  message_handlers hub' = message_handlers hub.
Proof.
  intros message Hreg Hobject. unfold send_message.
  rewrite Hreg, Hobject. simpl. fold message.
  split; [done|]. split.
  - unfold history_of. simpl. rewrite Hreg. simpl.
    unfold store_set. by rewrite decide_True.
  - split; [done|]. split; [|done].
    intros other Hne. unfold store_set. by rewrite decide_False.
Qed.

(** Whatever it is given, [send_message] leaves the registry and
    the subscription table as they are, and it either leaves the pending
    queue as it is or appends one message to it; a send that succeeds
    has appended one. *)
Theorem send_message_frame hub (store : Store) (now : datetime)
    (sender recipient content : string)
    (metadata : option (gmap string string)) :
  let '(result, hub', store') :=
    send_message now sender recipient content metadata hub store in
  agents hub' = agents hub /\
  message_handlers hub' = message_handlers hub /\
  (message_queue hub' = message_queue hub \/
   exists message, message_queue hub' = message_queue hub ++ [message]) /\
  (success result = true ->
   exists message,
     message_queue hub' = message_queue hub ++ [message] /\
     base_agent.content message = content /\
     base_agent.recipient message = recipient).
Proof.
  unfold send_message.
  destruct (dict_get recipient (agents hub)) as [r|].
  - destruct (receive_message (store r) _ (history (store r)))
      as [h' [e|]]; simpl.
    + split; [done|]. split; [done|]. split; [right; by eexists|done].
    + split; [done|]. split; [done|]. split; [right; by eexists|].
      intros _. by eexists.
  - simpl. split; [done|]. split; [done|]. split; [by left|done].
Qed.

(** ** Broadcasting *)

Lemma send_message_registered hub (store : Store) (now : datetime)
    (sender recipient content : string)
    (metadata : option (gmap string string)) :
  recipient ∈ registered hub ->
  let '(result, hub', store') :=
    send_message now sender recipient content metadata hub store in
  reports_on now content recipient result /\
  message_queue hub'
  = message_queue hub
    ++ [broadcast_to now sender content metadata recipient] /\
  agents hub' = agents hub /\
  message_handlers hub' = message_handlers hub.
Proof.
  intros Hin. apply dict_get_is_Some in Hin as [r Hr].
  unfold send_message, reports_on, broadcast_to. rewrite Hr.
  destruct (receive_message (store r) _ (history (store r))) as [h' [e|]];
    simpl.
  - split; [right; by eauto|done].
  - split; [by left|done].
Qed.

Lemma broadcast_loop_send_each (now : datetime) (sender content : string)
    (metadata : option (gmap string string)) (exclude names : list string) :
  forall results (hub : CommunicationHub World) (store : Store),
    broadcast_loop now sender content metadata exclude names results
                   hub store
    = let '(sent, hub', store') :=
        send_each now sender content metadata
          (List.filter (fun agent_name => bool_decide (agent_name ∉ exclude))
                       names)
          hub store in
      (results ++ sent, hub', store').
Proof.
  induction names as [|agent_name names IH]; intros results hub store; simpl.
  - by rewrite app_nil_r.
  - destruct (bool_decide (agent_name ∉ exclude)); simpl; [|apply IH].
    destruct (send_message now sender agent_name content metadata hub store)
      as [[result hub1] store1].
    rewrite IH.
    destruct (send_each now sender content metadata _ hub1 store1)
      as [[sent hub2] store2].
    by rewrite <- app_assoc.
Qed.

Lemma send_each_registered (now : datetime) (sender content : string)
    (metadata : option (gmap string string)) (names : list string) :
  forall (hub : CommunicationHub World) (store : Store),
    (forall agent_name, agent_name ∈ names -> agent_name ∈ registered hub) ->
    let '(results, hub', store') :=
      send_each now sender content metadata names hub store in
    Forall2 (reports_on now content) names results /\
    message_queue hub'
    = message_queue hub
      ++ map (broadcast_to now sender content metadata) names /\
    agents hub' = agents hub /\
    message_handlers hub' = message_handlers hub.
Proof.
  induction names as [|agent_name names IH]; intros hub store Hreg; simpl.
  - split; [constructor|]. by rewrite app_nil_r.
  - pose proof (send_message_registered hub store now sender agent_name
                  content metadata) as Hsend.
    destruct (send_message now sender agent_name content metadata hub store)
      as [[result hub1] store1].
    destruct Hsend as (Hres & Hqueue & Hagents & Hhandlers);
      [apply Hreg; by left|].
    specialize (IH hub1 store1).
    destruct (send_each now sender content metadata names hub1 store1)
      as [[results hub2] store2].
    destruct IH as (IH1 & IH2 & IH3 & IH4).
    { intros k Hk. unfold registered. rewrite Hagents.
      apply Hreg. by right. }
    split; [by constructor|]. split; [|split; congruence].
    rewrite IH2, Hqueue. by rewrite <- app_assoc.
Qed.

Lemma addressed_registered (exclude : list string)
    (hub : CommunicationHub World) (agent_name : string) :
  agent_name ∈ addressed exclude hub -> agent_name ∈ registered hub.
Proof.
  unfold addressed. rewrite !list_elem_of_In, filter_In.
  by intros [Hin _].
Qed.

(** X17. [broadcast_message] is one [send_message] for each registered
    name that is not excluded, in the order of the registry (the sender's
    own name is addressed like any other). The results come in that
    order, one for each addressed name, and each reports on the delivery
    to its own name: delivered, with the message id, or failed, with the
    text of what the agent raised. The pending queue grows by one message
    for each addressed name, addressed to that name, in the same order,
    whether or not the delivery succeeded. The registry and the
    subscription table are left as they are. *)
Theorem broadcast_message_one_result_each hub (store : Store)
    (now : datetime) (sender content : string)
    (metadata : option (gmap string string))
    (exclude : option (list string)) :
  let names := addressed (default [] exclude) hub in
  let '(results, hub', store') :=
    broadcast_message now sender content metadata exclude hub store in
  (results, hub', store')
  = send_each now sender content metadata names hub store /\
  length results = length names /\
  Forall2 (reports_on now content) names results /\
  message_queue hub'
  = message_queue hub
    ++ map (broadcast_to now sender content metadata) names /\
  length (message_queue hub')
  = (length (message_queue hub) + length names)%nat /\
  agents hub' = agents hub /\
  message_handlers hub' = message_handlers hub.
Proof.
  intros names. unfold broadcast_message.
  rewrite broadcast_loop_send_each.
  change (List.filter _ (map fst (agents hub))) with names.
  pose proof (send_each_registered now sender content metadata names
                hub store) as Heach.
  destruct (send_each now sender content metadata names hub store)
    as [[results hub'] store'].
  destruct Heach as (Hres & Hqueue & Hagents & Hhandlers).
  { intros k. apply addressed_registered. }
  simpl. split; [done|]. split; [symmetry; by eapply Forall2_length|].
  split; [done|]. split; [done|]. split; [|done].
  rewrite Hqueue, length_app, length_map. done.
Qed.

(** ** Topics *)

Lemma prefix_app_true (p a b : string) :
  String.prefix p a = true -> String.prefix p (a +:+ b) = true.
Proof.
  revert a. induction p as [|c p IH]; intros a.
  - intros _. by destruct (a +:+ b).
  - destruct a as [|c' a]; simpl; [done|].
    destruct (Ascii.ascii_dec c c'); [apply IH|done].
Qed.

Lemma prefix_refl_true (s : string) : String.prefix s s = true.
Proof.
  induction s as [|c s IH]; simpl; [done|].
  destruct (Ascii.ascii_dec c c) as [_|Hne]; [done|by destruct Hne].
Qed.

Lemma contains_refl (s : string) : contains s s = true.
Proof.
  destruct s as [|c s]; [done|].
  change (contains (String c s) (String c s))
    with (String.prefix (String c s) (String c s) || contains (String c s) s).
  by rewrite prefix_refl_true.
Qed.

Lemma contains_app_l (needle a b : string) :
  contains needle a = true -> contains needle (a +:+ b) = true.
Proof.
  induction a as [|c a IH]; simpl.
  - rewrite orb_false_r. destruct needle; [|done]. intros _.
    by destruct b.
  - intros [Hp|Hc]%orb_prop.
    + pose proof (prefix_app_true needle (String c a) b Hp) as Hp'.
      simpl in Hp'. by rewrite Hp'.
    + rewrite (IH Hc). apply orb_true_r.
Qed.

Lemma contains_app_r (needle a b : string) :
  contains needle b = true -> contains needle (a +:+ b) = true.
Proof.
  intros Hb. induction a as [|c a IH]; simpl; [done|].
  rewrite IH. apply orb_true_r.
Qed.

Lemma publish_to_topic_invoked hub w (sender topic content : string)
    (metadata : option (gmap string string)) :
  invoked (publish_to_topic sender topic content metadata hub w)
  = map fst (subscriptions_containing topic (message_handlers hub)).
Proof.
  pose proof (publish_loop_call_each topic content metadata
                (message_handlers hub) (mkPublished [] w [])) as Hloop.
  simpl in Hloop.
  destruct (call_each content metadata
              (subscriptions_containing topic (message_handlers hub)) w)
    as [outcomes w'].
  unfold publish_to_topic. by rewrite Hloop.
Qed.

(** X18. Publishing reaches every subscriber of the topic, and more:
    right after [subscribe_to_topic(agent_name, topic, handler)], a
    publication is handed to that subscription whenever the published
    topic occurs in the subscribed topic or in the name of the agent, so
    in particular when the two topics are the same. *)
Theorem publish_reaches_subscription hub w
    (agent_name topic : string) (handler : Handler World)
    (sender published content : string)
    (metadata : option (gmap string string)) :
  contains published topic = true \/ contains published agent_name = true ->
  let hub' := subscribe_to_topic agent_name topic handler hub in
  topic_key agent_name topic
  ∈ invoked (publish_to_topic sender published content metadata hub' w).
Proof.
  intros Hoccurs hub'. rewrite publish_to_topic_invoked.
  apply list_elem_of_In, in_map_iff.
  exists (topic_key agent_name topic, handler). split; [done|].
  apply filter_In. split.
  - subst hub'. simpl.
    generalize (message_handlers hub). intros d.
    induction d as [|[k0 h0] d IH]; simpl; [by left|].
    destruct (decide (topic_key agent_name topic = k0)); [by left|by right].
  - simpl. unfold topic_key. destruct Hoccurs as [Ht|Ha].
    + apply contains_app_r. by apply contains_app_r.
    + by apply contains_app_l.
Qed.

Lemma subscriptions_containing_empty (table : dict (Handler World)) :
  subscriptions_containing EmptyString table = table.
Proof.
  unfold subscriptions_containing.
  induction table as [|[k h] table IH]; simpl; [done|].
  assert (contains EmptyString k = true) as -> by (by destruct k).
  by rewrite IH.
Qed.

(** X19. Publishing the empty topic calls every handler of the
    subscription table, in the order of the table: the empty string
    occurs in every key. *)
Theorem publish_empty_topic_calls_all hub w (sender content : string)
    (metadata : option (gmap string string)) :
  invoked (publish_to_topic sender EmptyString content metadata hub w)
  = map fst (message_handlers hub).
Proof.
  rewrite publish_to_topic_invoked.
  by rewrite subscriptions_containing_empty.
Qed.

Lemma NoDup_map_fst_filter {A B : Type} (f : A * B -> bool)
    (l : list (A * B)) :
  NoDup (map fst l) -> NoDup (map fst (List.filter f l)).
Proof.
  induction l as [|x l IH]; simpl; [done|].
  intros [Hx Hnd]%NoDup_cons. destruct (f x); simpl; [|by apply IH].
  constructor; [|by apply IH].
  intros Hin. apply Hx.
  apply list_elem_of_In, in_map_iff in Hin as (y & Hy & Hin).
  apply filter_In in Hin as [Hin _].
  apply list_elem_of_In, in_map_iff. by exists y.
Qed.

(** X20. In every hub that calls of [register_agent],
    [unregister_agent] and [subscribe_to_topic] lead to, one publication
    calls no subscription twice: subscribing again for the same agent
    and topic replaces the handler, it does not add a second one. *)
Theorem publish_calls_each_subscription_once (calls : list (HubCall World))
    w (sender topic content : string)
    (metadata : option (gmap string string)) :
  let hub := run_hub_calls calls init in
  NoDup (invoked (publish_to_topic sender topic content metadata hub w)).
Proof.
  intros hub.
  destruct (run_hub_calls_NoDup calls init) as [_ Hkeys].
  { split; constructor. }
  fold hub in Hkeys. rewrite publish_to_topic_invoked.
  by apply NoDup_map_fst_filter.
Qed.

(** ** History *)

(** X21. With a positive limit [get_message_history] returns the
    most recent entries of the history of the named object, in their
    order: as many as the limit says, or the whole history when it is
    shorter. An unknown name and an object without a history give the
    empty list. *)
Theorem get_message_history_most_recent hub (store : Store)
    (agent_name : string) (limit : Z) :
  (0 < limit)%Z ->
  let found := get_message_history agent_name limit hub store in
  match history_of agent_name hub store with
  | Some h =>
      found = most_recent (Z.to_nat limit) h /\
      found `suffix_of` h /\
      length found = Nat.min (Z.to_nat limit) (length h)
  | None => found = []
  end.
Proof.
  intros Hpos found. subst found.
  rewrite get_message_history_positive_limit by done.
  destruct (history_of agent_name hub store) as [h|]; [|done].
  split; [done|]. unfold most_recent. split.
  - apply suffix_drop.
  - rewrite length_drop. lia.
Qed.

(** X22. With a negative limit [get_message_history] skips the oldest
    [-limit] entries of the history and returns the rest: the slice
    [history[-limit:]] then starts at a positive index. *)
Theorem get_message_history_negative_limit hub (store : Store)
    (agent_name : string) (limit : Z) :
  (limit < 0)%Z ->
  get_message_history agent_name limit hub store
  = match history_of agent_name hub store with
    | Some h => drop (Z.to_nat (- limit)) h
    | None => []
    end.
Proof.
  intros Hneg. unfold get_message_history, history_of.
  destruct (dict_get agent_name (agents hub)) as [agent|]; simpl; [|done].
  destruct (history (store agent)) as [h|]; [|done].
  replace (limit <=? Z.of_nat (length h))%Z with true
    by (symmetry; apply Z.leb_le; lia).
  unfold slice_from.
  replace (- limit <? 0)%Z with false by (symmetry; apply Z.ltb_ge; lia).
  destruct (Z.min_spec (- limit) (Z.of_nat (length h))) as [[_ ->]|[Hle ->]];
    [done|].
  rewrite Nat2Z.id. rewrite drop_all.
  symmetry. apply drop_ge. lia.
Qed.

End hub.

Lemma register_unregister_round_trip_witness :
  let hub := register_agent "A" 0%nat (init (World := unit)) in
  unregister_agent "B" (register_agent "B" 1%nat hub) = hub.
Proof.
  intros hub.
  apply (register_unregister_round_trip hub "B" 1%nat).
  unfold hub, registered. simpl. rewrite list_elem_of_singleton. done.
Defined.

Lemma send_message_delivers_witness :
  let hub := register_agent "B" 1%nat (init (World := unit)) in
  let '(result, hub', store') :=
    send_message 5%Z "A" "B" "third" None hub objects in
  success result = true /\
  history_of "B" hub' store'
  = Some [hello; again; mkMessage "A" "B" "third" 5%Z (Some ∅)].
Proof.
  intros hub.
  pose proof (send_message_delivers hub objects 5%Z "A" "B" "third" None
                1%nat [hello; again] eq_refl eq_refl) as H.
  destruct (send_message 5%Z "A" "B" "third" None hub objects)
    as [[result hub'] store'].
  destruct H as (H1 & H2 & _). done.
Defined.

Lemma publish_reaches_subscription_witness :
  let hub := subscribe_to_topic "amy" "billing" answering init in
  "amy:billing" ∈ invoked (publish_to_topic "A" "billing" "invoice" None hub 0%nat).
Proof.
  intros hub.
  apply (publish_reaches_subscription init 0%nat "amy" "billing" answering
           "A" "billing" "invoice" None).
  left. reflexivity.
Defined.

Lemma get_message_history_most_recent_witness :
  let hub := register_agent "B" 1%nat (init (World := unit)) in
  get_message_history "B" 1 hub objects = [again].
Proof.
  intros hub.
  apply (get_message_history_most_recent hub objects "B" 1). lia.
Defined.

Lemma get_message_history_negative_limit_witness :
  let hub := register_agent "B" 1%nat (init (World := unit)) in
  get_message_history "B" (-1) hub objects = [again].
Proof.
  intros hub.
  rewrite (get_message_history_negative_limit hub objects "B" (-1)); [|lia].
  reflexivity.
Defined.

Lemma unregistered_agent_is_unknown_witness :
  let calls := [Register "A" 0%nat; Register "B" 1%nat] in
  let hub := unregister_agent "A" (run_hub_calls (World := unit) calls init) in
  dict_get "B" (agents hub) = Some 1%nat /\ ("A" ∉ registered hub).
Proof.
  intros calls hub.
  destruct (unregistered_agent_is_unknown (World := unit) calls "A"
              objects 0%Z "B" "hello" None) as (Hout & Hother & _).
  split; [|exact Hout].
  fold hub in Hother. rewrite (Hother "B"); [reflexivity|discriminate].
Defined.

(** Two agents, the second of which is off line and raises on every
    message: a broadcast that excludes nobody returns a success for the
    first name and a failure for the second, and queues one message for
    each. *)
Example broadcast_message_two_agents :
  let hub :=
    register_agent "B" 2%nat
      (register_agent "A" 0%nat (init (World := unit))) in
  let '(results, hub', _) :=
    broadcast_message 7%Z "A" "hello" None None hub objects in
  map message results
  = ["Message sent to 'A' successfully"; "Failed to send message to 'B'"] /\
  map recipient (message_queue hub') = ["A"; "B"].
Proof. vm_compute. done. Qed.

End communication_hub_more.

(* ===================================================================== *)
(** * The agents that drive the kernel: properties *)
(* ===================================================================== *)

Module agents_facts.
Import python goal_manager goal_manager_spec goal_manager_facts.
Import billing_agent.

(** ** Status names *)

(** X23. A status name is read without regard to the case of its
    letters, and reading is the inverse of [GoalStatus.value]: a string
    names the status [st] exactly if its lower-case form is the value of
    [st]; so the value of every status is read back as that status, and
    no other string is accepted. *)
Theorem parse_status_round_trip (status : string) (st : GoalStatus) :
  parse_status status = Some st <-> lower status = status_value st.
Proof.
  unfold parse_status. split.
  - unfold status_map. simpl.
    repeat (destruct (decide (lower status = _)) as [->|_];
            [by intros [= <-]|]).
    done.
  - intros ->. by destruct st.
Qed.

Lemma parse_status_round_trip_witness :
  parse_status "In_Progress" = Some IN_PROGRESS.
Proof. apply (parse_status_round_trip "In_Progress" IN_PROGRESS). reflexivity. Defined.

(** ** Updates *)

(** X24. [update_goal_progress] reports [updated = True] for every
    valid status name, also when no goal has the given id: the manager
    is then left as it was, as it is for an invalid status name, which is
    reported with [updated = False] and an error. *)
Theorem update_goal_progress_report (now : datetime)
    (goal_id status : string) (m : GoalManager) :
  let '(report, m') := update_goal_progress now goal_id status m in
  updated report = bool_decide (is_Some (parse_status status)) /\
  (updated report = false ->
     update_error report = Some ("Invalid status: " +:+ status)) /\
  (parse_status status = None \/ goals m !! goal_id = None -> m' = m) /\
  (forall st, parse_status status = Some st ->
     m' = update_goal_status now goal_id st m).
Proof.
  unfold update_goal_progress.
  destruct (parse_status status) as [st|] eqn:Hparse.
  - split; [done|]. split; [done|]. split.
    + intros [?|Hnone]; [done|]. unfold update_goal_status. by rewrite Hnone.
    + by intros ? [= <-].
  - split; [done|]. split; [done|]. split; done.
Qed.

Lemma update_goal_progress_report_witness :
  let '(report, m') := update_goal_progress 5%Z "nobody" "completed" init in
  updated report = true /\ m' = init.
Proof.
  pose proof (update_goal_progress_report 5%Z "nobody" "completed" init) as H.
  destruct (update_goal_progress 5%Z "nobody" "completed" init)
    as [report m'].
  destruct H as (Hupdated & _ & Hsame & _).
  split; [by rewrite Hupdated|]. apply Hsame. by right.
Defined.

(** ** Reports *)

Lemma filter_status_length (l : list Goal) :
  (length (filter (fun g => status g = COMPLETED) l)
   + length (filter (fun g => status g = FAILED) l)
   + length (filter (fun g => status g = PENDING) l) <= length l)%nat.
Proof.
  induction l as [|g l IH]; [done|].
  rewrite !filter_cons. simpl.
  destruct (status g); repeat case_decide; simpl; try done; lia.
Qed.

Lemma rate_bounds (completed_count total : nat) :
  (completed_count <= total)%nat ->
  (0 <= rate completed_count total)%Q /\ (rate completed_count total <= 1)%Q.
Proof.
  intros Hle. unfold rate. destruct (decide (total = 0%nat)) as [|Hpos].
  - split; done.
  - assert (0 < inject_Z (Z.of_nat total))%Q as Htotal.
    { unfold Qlt, inject_Z. simpl. lia. }
    split.
    + apply Qle_shift_div_l; [done|]. rewrite Qmult_0_l.
      unfold Qle, inject_Z. simpl. lia.
    + apply Qle_shift_div_r; [done|]. rewrite Qmult_1_l.
      unfold Qle, inject_Z. simpl. lia.
Qed.

(** X25. In the report of [get_goal_report] the goals counted as
    completed, failed and pending are together at most the total (goals
    in progress and cancelled goals are in none of the three counts), and
    the completion rate lies between 0 and 1; it is 0 for a manager
    without goals, where the code does not divide. *)
Theorem get_goal_report_counts (now : datetime) (m : GoalManager) :
  let report := get_goal_report now m in
  (completed_goals report + failed_goals report + pending_goals report
   <= total_goals report)%nat /\
  (0 <= completion_rate report)%Q /\
  (completion_rate report <= 1)%Q /\
  (total_goals report = 0%nat -> completion_rate report = 0%Q).
Proof.
  intros report. subst report. unfold get_goal_report. simpl.
  pose proof (filter_status_length (snd <$> map_to_list (goals m))) as Hsum.
  rewrite length_fmap, length_map_to_list in Hsum.
  fold (count_status COMPLETED m) in Hsum.
  fold (count_status FAILED m) in Hsum.
  fold (count_status PENDING m) in Hsum.
  split; [exact Hsum|].
  destruct (rate_bounds (count_status COMPLETED m) (size (goals m)))
    as [H0 H1]; [lia|].
  split; [exact H0|]. split; [exact H1|].
  intros Hzero. unfold rate. by rewrite decide_True.
Qed.

Lemma get_goal_report_counts_witness :
  completion_rate (get_goal_report 0%Z init) = 0%Q.
Proof.
  apply (get_goal_report_counts 0%Z init). reflexivity.
Defined.

Lemma get_active_goals_length (m : GoalManager) :
  (length (get_active_goals m) <= length (active_goals m))%nat.
Proof.
  unfold get_active_goals.
  induction (active_goals m) as [|gid l IH]; [done|]. csimpl.
  destruct (goals m !! gid); csimpl; lia.
Qed.

(** X26. As long as [create_goal] is only called with ids that are new
    to the table, a report never counts more active goals than goals. *)
Theorem get_goal_report_active_at_most_total (now : datetime)
    (calls : list (datetime * Call)) :
  fresh_ids calls init ->
  let report := get_goal_report now (run_calls calls init) in
  (active_goals_number report <= total_goals report)%nat.
Proof.
  intros Hfresh report. subst report. simpl.
  set (m := run_calls calls init).
  destruct (fresh_ids_active_index_ok calls init init_active_index_ok Hfresh)
    as [Hnd Hopen].
  fold m in Hnd, Hopen.
  etransitivity; [apply get_active_goals_length|].
  rewrite <- (size_list_to_set (C := gset string) (active_goals m)) by done.
  rewrite <- size_dom. apply subseteq_size.
  intros gid Hin. apply elem_of_list_to_set in Hin.
  destruct (Hopen gid Hin) as (g & Hg & _).
  apply elem_of_dom. by rewrite Hg.
Qed.

Lemma get_goal_report_active_at_most_total_witness :
  let calls := [(0, CreateGoal "g1" "first" None None);
                (1, CreateGoal "g2" "second" None None);
                (2, UpdateGoalStatus "g1" COMPLETED)]%Z in
  (active_goals_number (get_goal_report 3%Z (run_calls calls init))
   <= total_goals (get_goal_report 3%Z (run_calls calls init)))%nat.
Proof.
  intros calls.
  apply (get_goal_report_active_at_most_total 3%Z calls).
  by repeat split.
Defined.

(** X27. In every state that calls of [create_goal] and
    [update_goal_status] lead to, [monitor_goals_and_alert] returns: the
    lookup of an active id never raises. Its report counts the alerts
    that [monitor_goals] found, at most two for each active goal, marks
    each of them as handled, and one line is printed for each. *)
Theorem monitor_goals_and_alert_returns (calls : list (datetime * Call))
    (now : datetime) :
  let m := run_calls calls init in
  exists found report printed,
    monitor_goals now m = Ok found /\
    monitor_goals_and_alert now m = Ok (report, printed) /\
    alerts_processed report = length found /\
    (alerts_processed report <= 2 * active_goals_count report)%nat /\
    processed_goal_id <$> alerts report = alert_goal_id <$> found /\
    Forall (fun alert => handled alert = true) (alerts report) /\
    length printed = length found.
Proof.
  intros m.
  destruct (run_calls_table_ok calls init init_table_ok) as [Hid Hact].
  fold m in Hid, Hact.
  destruct (monitor_loop_alerts now m (active_goals m) [] Hact)
    as (found & Hrun & _).
  simpl in Hrun. fold (monitor_goals now m) in Hrun.
  unfold monitor_goals_and_alert. rewrite Hrun.
  eexists found, _, _. split; [done|]. split; [done|]. simpl.
  rewrite !length_map. split; [done|]. split.
  - pose proof (goal_manager_more.monitor_loop_length
                  now m (active_goals m) [] found Hrun) as Hbound.
    pose proof (goal_manager_more.get_active_goals_ids_table_ok m
                  (conj Hid Hact)) as Hids.
    apply (f_equal length) in Hids.
    rewrite length_fmap in Hids. simpl in Hbound. lia.
  - split; [|split; [|done]].
    + by rewrite <- list_fmap_compose.
    + apply Forall_forall. intros a Ha.
      apply list_elem_of_In, in_map_iff in Ha as (x & <- & _). done.
Qed.

(** ** Tracking *)

(** From a clock reading, a number of hours whose deadline is a
    [datetime] is itself a [timedelta]: the second operation of the
    deadline fails whenever the first one does. *)
Lemma is_datetime_is_timedelta (now : datetime) (h : Z) :
  is_datetime now = true -> is_datetime (now + hours h) = true ->
  is_timedelta (hours h) = true.
Proof.
  unfold is_datetime, is_timedelta, datetime_max, day.
  rewrite !andb_true_iff, !Z.leb_le. intros [H0 H1] [H2 H3]. split.
  - apply Z.div_le_lower_bound; lia.
  - assert (hours h / (86400 * 1000000) < 999999999 + 1)%Z; [|lia].
    apply Z.div_lt_upper_bound; lia.
Qed.

Lemma create_and_track_goal_deadline (now created_now : datetime)
    (goal_id description : string) (h : Z) (m : GoalManager) :
  h <> 0%Z -> is_datetime now = true ->
  create_and_track_goal now created_now goal_id description (Some h) m
  = if is_datetime (now + hours h)
    then
      let '(goal, m') :=
        create_goal created_now goal_id description
                    (Some (now + hours h)%Z) None m in
      inr (mkCreatedReport goal_id description "pending"
                           (Some (now + hours h)%Z) created_now, m')
    else inl OverflowError.
Proof.
  intros Hh Hnow. unfold create_and_track_goal.
  replace (h =? 0)%Z with false by (symmetry; by apply Z.eqb_neq).
  unfold timedelta_hours, datetime_add.
  destruct (is_datetime (now + hours h)) eqn:Hsum.
  - rewrite (is_datetime_is_timedelta now h Hnow Hsum). by rewrite Hsum.
  - destruct (is_timedelta (hours h)); [|done]. by rewrite Hsum.
Qed.

(** X28. [create_and_track_goal] with a number of hours other than zero,
    called when the clock reads [now] (a [datetime]):
    - if [now] plus the hours is not a [datetime], the call raises
      [OverflowError] (and no goal has been created);
    - otherwise it returns, the report says that the goal is pending,
      has the deadline [now] plus the hours, and was created at the
      reading [created_now] that [create_goal] took; the goal is in the
      table and its id in the active index;
    - if the goal was created before its deadline, its progress is 0 at
      the reading it was created at and 1 from the deadline on; if it was
      created at the deadline or after it (a negative number of hours, or
      a clock that jumped), its progress is 0 at every reading;
    - the goal is not expired at any reading up to the deadline, and
      expired at every later one. *)
Theorem create_and_track_goal_window (now created_now : datetime)
    (goal_id description : string) (h : Z) (m : GoalManager) :
  h <> 0%Z -> is_datetime now = true ->
  let deadline := (now + hours h)%Z in
  (is_datetime deadline = false ->
   create_and_track_goal now created_now goal_id description (Some h) m
   = inl OverflowError) /\
  (is_datetime deadline = true ->
   exists report m' goal,
     create_and_track_goal now created_now goal_id description (Some h) m
     = inr (report, m') /\
     created_goal_id report = goal_id /\
     created_description report = description /\
     created_status report = "pending" /\
     created_deadline report = Some deadline /\
     created report = created_now /\
     goals m' !! goal_id = Some goal /\
     status goal = PENDING /\
     created_at goal = created_now /\
     goal_manager.deadline goal = Some deadline /\
     goal_id ∈ active_goals m' /\
     ((created_now < deadline)%Z ->
        (get_goal_progress created_now goal_id m' == 0)%Q /\
        (forall t, (deadline <= t)%Z ->
           (get_goal_progress t goal_id m' == 1)%Q)) /\
     ((deadline <= created_now)%Z ->
        forall t, get_goal_progress t goal_id m' = 0%Q) /\
     (forall t, is_expired t goal = (deadline <? t)%Z)).
Proof.
  intros Hh Hnow deadline.
  rewrite (create_and_track_goal_deadline now created_now goal_id
             description h m Hh Hnow).
  fold deadline. split; [by intros ->|]. intros ->.
  unfold create_goal. simpl.
  eexists _, _, (mkGoal goal_id description PENDING created_now None
                        (Some deadline) ∅ []).
  split; [reflexivity|]. simpl.
  do 5 (split; [done|]).
  split; [by rewrite lookup_insert_eq|]. do 3 (split; [done|]).
  split. { apply elem_of_app. right. by apply list_elem_of_singleton. }
  assert (forall t, get_goal_progress t goal_id
            (mkGoalManager
               (<[goal_id := mkGoal goal_id description PENDING created_now
                               None (Some deadline) ∅ []]> (goals m))
               (active_goals m ++ [goal_id]))
          = if Qlt_le_dec 0 (total_seconds (deadline - created_now))
            then Qmin 1 (total_seconds (t - created_now)
                         / total_seconds (deadline - created_now))
            else 0%Q) as Hprog.
  { intros t. unfold get_goal_progress. simpl. by rewrite lookup_insert_eq. }
  split; [|split].
  - intros Hlt.
    assert (0 < total_seconds (deadline - created_now))%Q as Htotal.
    { unfold total_seconds, Qlt. simpl. lia. }
    split.
    + rewrite Hprog.
      destruct (Qlt_le_dec 0 (total_seconds (deadline - created_now)))
        as [_|Hle]; [|exfalso; by apply (Qlt_not_le _ _ Htotal)].
      replace (created_now - created_now)%Z with 0%Z by lia.
      assert (total_seconds 0 / total_seconds (deadline - created_now) == 0)%Q
        as Hzero.
      { unfold Qdiv, Qmult, Qeq. simpl. lia. }
      rewrite Q.min_r; [exact Hzero|]. by rewrite Hzero.
    + intros t Ht. rewrite Hprog.
      destruct (Qlt_le_dec 0 (total_seconds (deadline - created_now)))
        as [_|Hle]; [|exfalso; by apply (Qlt_not_le _ _ Htotal)].
      apply Q.min_l.
      apply Qle_shift_div_l; [done|]. rewrite Qmult_1_l.
      apply goal_manager_more.total_seconds_le. lia.
  - intros Hle t. rewrite Hprog.
    destruct (Qlt_le_dec 0 (total_seconds (deadline - created_now)))
      as [Hpos|_]; [|done].
    exfalso. unfold total_seconds, Qlt in Hpos. simpl in Hpos. lia.
  - intros t. unfold is_expired. simpl.
    destruct (Z.ltb_spec deadline t), (Z.gtb_spec t deadline); (done || lia).
Qed.

(** Two hours asked for in the year 2025 (the reading is 63.9 * 10^15
    microseconds after [datetime.min]), with the goal stamped five
    microseconds later. *)
Lemma create_and_track_goal_window_witness :
  exists report m',
    create_and_track_goal 63900000000000000%Z 63900000000000005%Z
                          "g1" "ship" (Some 2%Z) init
    = inr (report, m') /\
    created_deadline report = Some 63900007200000000%Z /\
    (get_goal_progress 63900007200000000%Z "g1" m' == 1)%Q.
Proof.
  destruct (create_and_track_goal_window 63900000000000000%Z
              63900000000000005%Z "g1" "ship" 2%Z init)
    as [_ Hreturns]; [lia|reflexivity|].
  destruct Hreturns
    as (report & m' & goal & Hcall & _ & _ & _ & Hdeadline & _ & _ & _ & _
        & _ & _ & Hbefore & _); [reflexivity|].
  exists report, m'. split; [exact Hcall|]. split; [exact Hdeadline|].
  apply Hbefore; unfold hours; lia.
Defined.

(** At the end of the range of [datetime] the deadline cannot be
    computed, and a goal asked for a day ahead is not created. *)
Example create_and_track_goal_overflow :
  create_and_track_goal datetime_max datetime_max "g1" "ship" (Some 24%Z) init
  = inl OverflowError.
Proof. reflexivity. Qed.

(** A goal stamped after the reading that its deadline was counted from
    has a negative progress at that reading. *)
Example create_and_track_goal_progress_at_first_reading :
  match create_and_track_goal 63900000000000000%Z 63900000000000005%Z
                              "g1" "ship" (Some 2%Z) init with
  | inr (_, m') =>
      (get_goal_progress 63900000000000000%Z "g1" m' < 0)%Q
  | inl _ => False
  end.
Proof. vm_compute. done. Qed.

End agents_facts.

(* ===================================================================== *)
(** * The goal setting agent and the customer service agent: properties *)
(* ===================================================================== *)

Module process_facts.
Import python goal_manager billing_agent.

(** ** Goal setting requests *)

(** X29. What [GoalSettingAgent.process] does to the goal manager is
    read off its answer: a failure and a report leave the manager as it
    was; a created answer means that [create_goal] ran for the goal id
    of the request, which was not empty; an updated answer means that
    [update_goal_status] ran with the status that the request names. *)
Theorem process_manager_by_response (now : datetime)
    (input_data : escalation_agent.InputData) (m : GoalManager) :
  let '(response, m') := escalation_agent.process now input_data m in
  match response with
  | escalation_agent.Failure _ => m' = m
  | escalation_agent.Report total _ _ _ _ =>
      m' = m /\ total = size (goals m)
  | escalation_agent.Created goal_id description st deadline =>
      escalation_agent.input_goal_id input_data = Some goal_id /\
      goal_id <> EmptyString /\
      st = "pending" /\
      m' = snd (create_goal now goal_id description deadline None m)
  | escalation_agent.Updated goal_id status =>
      exists st,
        parse_status status = Some st /\
        m' = update_goal_status now goal_id st m
  end.
Proof.
  unfold escalation_agent.process.
  destruct (decide (default "create" (escalation_agent.action input_data)
                    = "create")) as [_|_].
  - destruct (escalation_agent.input_goal_id input_data) as [gid|]; [|done].
    destruct (escalation_agent.input_description input_data) as [desc|];
      simpl; [|by rewrite orb_true_r].
    case_bool_decide as Hgid; [done|].
    case_bool_decide as Hdesc; [done|]. simpl. done.
  - destruct (decide (default "create" (escalation_agent.action input_data)
                      = "update_status")) as [_|_].
    + destruct (escalation_agent.input_goal_id input_data) as [gid|]; [|done].
      destruct (escalation_agent.input_status input_data) as [status|];
        simpl; [|by rewrite orb_true_r].
      case_bool_decide as Hgid; [done|].
      case_bool_decide as Hstatus; [done|]. simpl.
      destruct (parse_status status) as [st|] eqn:Hparse; [|done].
      by exists st.
    + by destruct (decide (default "create"
                             (escalation_agent.action input_data)
                           = "get_report")).
Qed.

(** ** Recovery in the customer service agent *)

Import exception_handler exception_handler_more_spec customer_service_agent.

(** X30. With the default tables, what the [except] clause of
    [CustomerServiceAgent.process] does with an exception depends on its
    kind alone: for a connection or timeout error it returns the
    dictionary of [_handle_process_exception] after one call and no
    suspension; for a validation or unknown error it returns the apology
    with the text of the exception and the strategy name ["ignore"]; for
    a business or system error it returns nothing: a new exception with
    the text ["Escalating exception: ..."] leaves [process]. *)
Theorem process_except_by_kind (now : datetime) (stack : list string)
    (e : Exception) (ctx : option (gmap string string))
    (trace : list Event) :
  let '(outcome, _, trace') :=
    process_except now stack e ctx exception_handler.init trace in
  match default_strategy (_classify_exception e) with
  | RETRY => outcome = Ok RecoveryAttempt /\ trace' = trace ++ [Invoked]
  | ESCALATE =>
      outcome = Err (mkException "Exception"
                       ("Escalating exception: " +:+ str e)) /\
      trace' = trace
  | _ => outcome = Ok (Apology (str e) "ignore") /\ trace' = trace
  end.
Proof.
  unfold process_except, handle_exception.
  destruct (_classify_exception e); by vm_compute.
Qed.

End process_facts.
